(** * mkdocs.config.config_options: a shallow embedding and its properties

    The development follows [mkdocs/config/config_options.py].  Python
    values are an inductive type, exceptions are an error monad, the option
    object ([self]) and the configuration ([config]) are threaded as explicit
    state.  A [str] is held as its UTF-8 encoding.  The [str] methods and
    the [posixpath] routines the module calls are written out after CPython
    (Python 3 on a POSIX system); they work on ASCII delimiters, so that a
    position in bytes stands for the position in characters.  [urlparse]
    and the case mappings of the interpreter on text that is not ASCII are
    fields of an environment record, as is everything that depends on the
    machine or on modules of the package that are not part of this file
    (working directory, file system, theme registry,
    [utils.is_markdown_file], [utils.nest_paths],
    [legacy.pages_compat_shim]). *)

From Stdlib Require Import ZArith Ascii String List Bool Lia.
From stdpp Require Import base option gmap strings list sorting.

Local Open Scope Z_scope.

(** ** Python [str] methods *)

Module str.

Definition isupper (c : ascii) : bool :=
  let n := nat_of_ascii c in (65 <=? n)%nat && (n <=? 90)%nat.

Definition islower (c : ascii) : bool :=
  let n := nat_of_ascii c in (97 <=? n)%nat && (n <=? 122)%nat.

Definition tolower (c : ascii) : ascii :=
  if isupper c then ascii_of_nat (nat_of_ascii c + 32) else c.

Definition toupper (c : ascii) : ascii :=
  if islower c then ascii_of_nat (nat_of_ascii c - 32) else c.

(** [s.isascii()] *)
Fixpoint isascii (s : string) : bool :=
  match s with
  | EmptyString => true
  | String c s' => (nat_of_ascii c <? 128)%nat && isascii s'
  end.

(** [len(s)]: the number of characters, that is of the bytes that do not
    continue a character (those outside 128..191). *)
Fixpoint code_points (s : string) : Z :=
  match s with
  | EmptyString => 0
  | String c s' =>
      let n := nat_of_ascii c in
      (if (128 <=? n)%nat && (n <? 192)%nat then 0 else 1) + code_points s'
  end.

(** [s.lower()] on ASCII text. *)
Fixpoint ascii_lower (s : string) : string :=
  match s with
  | EmptyString => EmptyString
  | String c s' => String (tolower c) (ascii_lower s')
  end.

(** [s.title()] on ASCII text: a letter that follows a letter is lowered, a
    letter that does not is raised. *)
Fixpoint title_from (previous_is_cased : bool) (s : string) : string :=
  match s with
  | EmptyString => EmptyString
  | String c s' =>
      if islower c then
        String (if previous_is_cased then c else toupper c) (title_from true s')
      else if isupper c then
        String (if previous_is_cased then tolower c else c) (title_from true s')
      else String c (title_from false s')
  end.

Definition ascii_title (s : string) : string := title_from false s.

(** [s.startswith(p)] *)
Fixpoint startswith (s p : string) {struct p} : bool :=
  match p, s with
  | EmptyString, _ => true
  | String _ _, EmptyString => false
  | String b p', String a s' => if Ascii.eqb a b then startswith s' p' else false
  end.

(** [s.endswith(c)] for a one-character suffix. *)
Fixpoint endswith (s : string) (c : ascii) : bool :=
  match s with
  | EmptyString => false
  | String a EmptyString => Ascii.eqb a c
  | String _ s' => endswith s' c
  end.

(** [c in s] for a character. *)
Fixpoint contains (s : string) (c : ascii) : bool :=
  match s with
  | EmptyString => false
  | String a s' => Ascii.eqb a c || contains s' c
  end.

(** [s[n:]] and [s[:n]] for [n >= 0]. *)
Fixpoint drop (n : nat) (s : string) : string :=
  match n, s with
  | O, _ => s
  | S _, EmptyString => EmptyString
  | S n', String _ s' => drop n' s'
  end.

Fixpoint take (n : nat) (s : string) : string :=
  match n, s with
  | O, _ => EmptyString
  | S _, EmptyString => EmptyString
  | S n', String a s' => String a (take n' s')
  end.

(** [s[a:b]] for [0 <= a] and [0 <= b]. *)
Definition slice (s : string) (a b : Z) : string :=
  take (Z.to_nat (b - a)) (drop (Z.to_nat a) s).

(** Index of the first [c] in [s], the first character of [s] having
    index [pos]; [-1] when there is none. *)
Fixpoint index_from (c : ascii) (s : string) (pos : Z) : Z :=
  match s with
  | EmptyString => -1
  | String a s' => if Ascii.eqb a c then pos else index_from c s' (pos + 1)
  end.

(** [s.find(c)] *)
Definition find (s : string) (c : ascii) : Z := index_from c s 0.

(** [s.rfind(c)] *)
Fixpoint rindex_from (c : ascii) (s : string) (pos : Z) : Z :=
  match s with
  | EmptyString => -1
  | String a s' =>
      let r := rindex_from c s' (pos + 1) in
      if 0 <=? r then r else if Ascii.eqb a c then pos else -1
  end.

Definition rfind (s : string) (c : ascii) : Z := rindex_from c s 0.

(** [s.split(sep)] for a one-character separator; never empty. *)
Fixpoint split (s : string) (sep : ascii) : list string :=
  match s with
  | EmptyString => [EmptyString]
  | String c s' =>
      if Ascii.eqb c sep then EmptyString :: split s' sep
      else match split s' sep with
           | w :: ws => String c w :: ws
           | [] => [String c EmptyString]
           end
  end.

(** [sep.join(l)] *)
Fixpoint join (sep : string) (l : list string) : string :=
  match l with
  | [] => EmptyString
  | [x] => x
  | x :: l' => x +:+ sep +:+ join sep l'
  end.

(** [all(p(c) for c in s)] *)
Fixpoint all (p : ascii → bool) (s : string) : bool :=
  match s with
  | EmptyString => true
  | String a s' => p a && all p s'
  end.

(** [sorted(l)] on strings: insertion into an ordered list, with the
    byte-wise lexicographic order of [str]. *)
Fixpoint insert_sorted (x : string) (l : list string) : list string :=
  match l with
  | [] => [x]
  | y :: l' => if String.leb x y then x :: l else y :: insert_sorted x l'
  end.

Definition sorted (l : list string) : list string :=
  fold_right insert_sorted [] l.

End str.

(** ** [posixpath] *)

Module posixpath.

Definition sep : ascii := "/"%char.

(** [join(a, *p)] *)
Definition join (a : string) (p : list string) : string :=
  fold_left
    (λ path b,
       if str.startswith b "/" then b
       else if (String.eqb path "" || str.endswith path sep)%bool then path +:+ b
       else path +:+ "/" +:+ b)
    p a.

Definition isabs (s : string) : bool := str.startswith s "/".

(** [normpath(path)] *)
Definition normpath (path : string) : string :=
  if String.eqb path "" then "."
  else
    let initial_slashes : nat :=
      if str.startswith path "/" then
        if (str.startswith path "//" && negb (str.startswith path "///"))%bool
        then 2%nat else 1%nat
      else 0%nat in
    let comps := str.split path sep in
    let new_comps :=
      fold_left
        (λ new_comps comp,
           if (String.eqb comp "" || String.eqb comp ".")%bool then new_comps
           else if (negb (String.eqb comp "..")
                    || (Nat.eqb initial_slashes 0 && bool_decide (new_comps = []))
                    || (bool_decide (new_comps ≠ [])
                        && bool_decide (last new_comps = Some ".."))) %bool
                then new_comps ++ [comp]
                else removelast new_comps)
        comps [] in
    let path := str.join "/" new_comps in
    let path := str.take initial_slashes "//" +:+ path in
    if String.eqb path "" then "." else path.

(** [abspath(path)], with [os.getcwd()] passed in. *)
Definition abspath (cwd path : string) : string :=
  normpath (if isabs path then path else join cwd [path]).

(** [commonprefix([l1, l2])] on lists of components. *)
Fixpoint commonprefix (l1 l2 : list string) : list string :=
  match l1, l2 with
  | x :: l1', y :: l2' => if String.eqb x y then x :: commonprefix l1' l2' else []
  | _, _ => []
  end.

(** [relpath(path, start)] *)
Definition relpath (cwd path start : string) : string :=
  let nonempty := filter (λ x, x ≠ "") in
  let start_list := nonempty (str.split (abspath cwd start) sep) in
  let path_list := nonempty (str.split (abspath cwd path) sep) in
  let i := length (commonprefix start_list path_list) in
  let rel_list := replicate (length start_list - i) ".." ++ drop i path_list in
  match rel_list with
  | [] => "."
  | a :: p => join a p
  end.

(** [splitext(p)]: the extension starts at the last dot of the last
    component, leading dots of that component not counting. *)
Fixpoint only_dots (s : string) : bool :=
  match s with
  | EmptyString => true
  | String a s' => Ascii.eqb a "." && only_dots s'
  end.

Definition splitext (p : string) : string * string :=
  let sepIndex := str.rfind p sep in
  let dotIndex := str.rfind p "." in
  if sepIndex <? dotIndex then
    (* some character of p[sepIndex+1:dotIndex] is not a dot *)
    if negb (only_dots (str.slice p (sepIndex + 1) dotIndex))
    then (str.take (Z.to_nat dotIndex) p, str.drop (Z.to_nat dotIndex) p)
    else (p, "")
  else (p, "").

End posixpath.


(** ** [urllib.parse.urlparse] *)

Module urlparse.

(** What [urlparse(url)] returns, as far as the module looks at it. *)
Record SplitResult := { scheme : string; netloc : string }.

End urlparse.

(** ** Python values, types and exceptions *)

Set Warnings "-register-all".

(** The values a configuration holds once the YAML file is loaded (floats
    are left out; a mapping is the list of its items, keys distinct). *)
Inductive val : Type :=
| VNone
| VBool (b : bool)
| VInt (n : Z)
| VStr (s : string)
| VList (l : list val)
| VDict (items : list (string * val))
| VOrderedDict (items : list (string * val)).

Inductive pytype : Type :=
| NoneType | bool_t | int_t | str_t | list_t | dict_t | OrderedDict_t.

Global Instance pytype_eq_dec : EqDecision pytype.
Proof. solve_decision. Defined.

Global Instance pytype_countable : Countable pytype.
Proof.
  refine (inj_countable'
    (λ t, match t with
          | NoneType => 0%nat | bool_t => 1%nat | int_t => 2%nat | str_t => 3%nat
          | list_t => 4%nat | dict_t => 5%nat | OrderedDict_t => 6%nat
          end)
    (λ n, match n with
          | 0%nat => NoneType | 1%nat => bool_t | 2%nat => int_t | 3%nat => str_t
          | 4%nat => list_t | 5%nat => dict_t | _ => OrderedDict_t
          end) _).
  by intros [].
Defined.

(** [type(v)] *)
Definition type_of (v : val) : pytype :=
  match v with
  | VNone => NoneType
  | VBool _ => bool_t
  | VInt _ => int_t
  | VStr _ => str_t
  | VList _ => list_t
  | VDict _ => dict_t
  | VOrderedDict _ => OrderedDict_t
  end.

(** [issubclass(a, b)]: [bool] derives from [int], [OrderedDict] from [dict]. *)
Definition issubclass (a b : pytype) : bool :=
  bool_decide (a = b)
  || match a, b with
     | bool_t, int_t | OrderedDict_t, dict_t => true
     | _, _ => false
     end.

(** [isinstance(v, types)], [types] a tuple of types. *)
Definition isinstance (v : val) (types : list pytype) : bool :=
  existsb (issubclass (type_of v)) types.

(** [six.string_types] *)
Definition string_types : list pytype := [str_t].

(** Truth value of an object. *)
Definition truthy (v : val) : bool :=
  match v with
  | VNone => false
  | VBool b => b
  | VInt n => negb (n =? 0)
  | VStr s => negb (String.eqb s "")
  | VList l => negb (bool_decide (l = []))
  | VDict items | VOrderedDict items => negb (bool_decide (items = []))
  end.

(** Arguments of a [str.format] call, kept as they are passed (the message is
    not rendered). *)
Inductive format_arg : Type :=
| ArgTypes (types : list pytype)
| ArgType (t : pytype)
| ArgValue (v : val)
| ArgInt (n : Z).

Inductive message : Type :=
| Msg (text : string)
| Format (template : string) (args : list format_arg).

Inductive exn : Type :=
| ValidationError (msg : message)
| TypeError
| AttributeError
| ValueError
| KeyError (key : string).

(** ** Results and the state-and-exception monad *)

Inductive res (A : Type) : Type :=
| Ok (a : A)
| Raise (e : exn).
Global Arguments Ok {A} a.
Global Arguments Raise {A} e.

Global Instance res_ret : MRet res := λ A a, Ok a.
Global Instance res_bind : MBind res := λ A B f r,
  match r with
  | Ok a => f a
  | Raise e => Raise e
  end.

(** A computation over a mutable object of type [S]: it returns or raises,
    and leaves the object in a new state either way. *)
Definition M (S A : Type) : Type := S → res A * S.

Global Instance M_ret {S} : MRet (M S) := λ A a s, (Ok a, s).
Global Instance M_bind {S} : MBind (M S) := λ A B f m s,
  match m s with
  | (Ok a, s') => f a s'
  | (Raise e, s') => (Raise e, s')
  end.

Definition raise {S A} (e : exn) : M S A := λ s, (Raise e, s).
Definition get {S} : M S S := λ s, (Ok s, s).
Definition modify {S} (f : S → S) : M S unit := λ s, (Ok tt, f s).
Definition lift {S A} (r : res A) : M S A := λ s, (r, s).

(** [len(v)] *)
Definition len (v : val) : res Z :=
  match v with
  | VStr s => Ok (str.code_points s)
  | VList l => Ok (Z.of_nat (length l))
  | VDict items | VOrderedDict items => Ok (Z.of_nat (length items))
  | VNone | VBool _ | VInt _ => Raise TypeError
  end.

(** [v is None] *)
Definition is_None (v : val) : bool :=
  match v with VNone => true | _ => false end.

(** ** The environment *)

(** A directory: the names of its files and its sub-directories, both in the
    order [os.listdir] gives them.  The file systems considered hold
    directories and regular files, no symbolic links. *)
Inductive tree : Type :=
| Tree (filenames : list string) (dirs : list (string * tree)).

Record Env : Type := {
  (** [os.getcwd()] *)
  getcwd : string;
  (** the file system below ["/"] *)
  root : tree;
  (** [os.path.abspath(os.path.join(os.path.dirname(__file__), '..'))] *)
  package_dir : string;
  (** [utils.get_theme_names()] *)
  get_theme_names : list string;
  (** [utils.is_markdown_file] *)
  is_markdown_file : string → bool;
  (** [utils.nest_paths] *)
  nest_paths : list string → val;
  (** [legacy.pages_compat_shim] *)
  pages_compat_shim : val → res val;
  (** [six.moves.urllib.parse.urlparse] on a [str]; [None] when it raises
      [ValueError] *)
  urlsplit : string → option urlparse.SplitResult;
  (** [s.lower()] and [s.title()] of the interpreter on text that is not
      ASCII *)
  unicode_lower : string → string;
  unicode_title : string → string;
}.

(** [s.lower()] *)
Definition lower (E : Env) (s : string) : string :=
  if str.isascii s then str.ascii_lower s else unicode_lower E s.

(** [s.title()] *)
Definition title (E : Env) (s : string) : string :=
  if str.isascii s then str.ascii_title s else unicode_title E s.

Module os.

(** The directory a list of path components leads to. *)
Fixpoint resolve (t : tree) (comps : list string) : option tree :=
  match comps with
  | [] => Some t
  | name :: comps' =>
      match t with
      | Tree _ dirs =>
          (fix find (ds : list (string * tree)) : option tree :=
             match ds with
             | [] => None
             | (n, sub) :: ds' =>
                 if String.eqb n name then resolve sub comps' else find ds'
             end) dirs
      end
  end.

(** One component of a path, followed from the directory at [location]
    (the names from the root down): an empty component and ['.'] stay,
    ['..'] goes up, the root being its own parent, and a name goes down and
    has to be a directory. *)
Definition follow (root : tree) (location : option (list string)) (comp : string)
  : option (list string) :=
  match location with
  | None => None
  | Some names =>
      if (String.eqb comp "" || String.eqb comp ".")%bool then Some names
      else if String.eqb comp ".." then Some (removelast names)
      else match resolve root (names ++ [comp]) with
           | Some _ => Some (names ++ [comp])
           | None => None
           end
  end.

(** Where a path leads, component by component, from the root for an
    absolute path and from the working directory for another; the empty
    path leads nowhere. *)
Definition locate (E : Env) (path : string) : option (list string) :=
  if String.eqb path "" then None
  else
    fold_left (follow (root E)) (str.split path posixpath.sep)
      (if posixpath.isabs path then Some []
       else fold_left (follow (root E))
              (str.split (getcwd E) posixpath.sep) (Some [])).

Definition lookup_dir (E : Env) (path : string) : option tree :=
  match locate E path with
  | Some names => resolve (root E) names
  | None => None
  end.

(** [os.path.isdir(path)] *)
Definition isdir (E : Env) (path : string) : bool :=
  bool_decide (is_Some (lookup_dir E path)).

(** [os.walk(top)], top-down, on the directory [t] that [top] names:
    the triples [(dirpath, dirnames, filenames)] in the order they are
    yielded. *)
Fixpoint walk_tree (top : string) (t : tree)
  : list (string * list string * list string) :=
  match t with
  | Tree filenames dirs =>
      (top, fst <$> dirs, filenames)
      :: (fix below (ds : list (string * tree)) :=
            match ds with
            | [] => []
            | (name, sub) :: ds' =>
                walk_tree (posixpath.join top [name]) sub ++ below ds'
            end) dirs
  end.

(** [os.walk] yields nothing when [top] cannot be listed. *)
Definition walk (E : Env) (top : string)
  : list (string * list string * list string) :=
  match lookup_dir E top with
  | Some t => walk_tree top t
  | None => []
  end.

End os.

(** ** The configuration object *)

(** Modelled from the spec: the class of [config] is not part of this
    module.  It is a mapping from option names to values ([config[k]] raises
    [KeyError] on a missing key, [config.get(k)] gives [None]) together with
    [user_configs], the ordered list of the mappings that were loaded into
    it. *)
Record Config : Type := {
  data : gmap string val;
  user_configs : list (gmap string val);
}.

(** [config[key]] *)
Definition getitem (key : string) : M Config val := λ config,
  match data config !! key with
  | Some v => (Ok v, config)
  | None => (Raise (KeyError key), config)
  end.

(** [config.get(key)] *)
Definition get_or_None (key : string) : M Config val := λ config,
  (Ok (from_option id VNone (data config !! key)), config).

(** [config[key] = v] *)
Definition setitem (key : string) (v : val) : M Config unit := λ config,
  (Ok tt, {| data := <[key := v]> (data config);
             user_configs := user_configs config |}).

(** ** The option classes *)

(** The class of an option with the attributes its constructor adds.  [Dir]
    hands its keyword arguments on to [Type], so a [Dir] has a [length]. *)
Inductive class : Type :=
| BaseConfigOption
| Type_ (type_ : list pytype) (length : option Z)
| URL
| RepoURL
| Dir (exists_ : bool) (length : option Z)
| SiteDir (exists_ : bool) (length : option Z)
| ThemeDir (exists_ : bool) (length : option Z)
| Theme
| Extras (file_match : string → bool)
| Pages
| NumPages (at_lest : Z).

Definition warning : Type := string * message.

(** An option object: [BaseConfigOption.__init__] sets the three
    attributes. *)
Record ConfigOption : Type := {
  class_of : class;
  default : val;
  required : bool;
  warnings : list warning;
}.

(** [cls(default=None, required=False)] with the keyword arguments given. *)
Definition new (c : class) (default : val) (required : bool) : ConfigOption :=
  {| class_of := c; default := default; required := required; warnings := [] |}.

(** [NumPages(at_lest=1)] *)
Definition NumPages_default : class := NumPages 1.

Definition append_warning (w : warning) (self : ConfigOption) : ConfigOption :=
  {| class_of := class_of self; default := default self;
     required := required self; warnings := warnings self ++ [w] |}.

Section Options.

Variable E : Env.

(** *** [run_validation] *)

Definition Type_run_validation
    (type_ : list pytype) (length : option Z) (value : val) : res val :=
  if negb (isinstance value type_) then
    Raise (ValidationError
      (Format "Expected type: {0} but recieved: {1}"
         [ArgTypes type_; ArgType (type_of value)]))
  else
    match length with
    | None => Ok value
    | Some n =>
        k ← len value;
        if negb (k =? n) then
          Raise (ValidationError
            (Format
               "Expected type: {0} with lenght {2} but recieved: {1} with length {3}"
               [ArgTypes type_; ArgValue value; ArgInt n; ArgInt k]))
        else Ok value
    end.

(** [urlparse] decodes an argument that is not a [str]: a false one counts
    as empty, a true one has no [decode] and raises [AttributeError]. *)
Definition URL_run_validation (value : val) : res val :=
  match value with
  | VStr url =>
      match urlsplit E url with
      | None => Raise ValueError
      | Some parsed_url =>
          if negb (String.eqb (urlparse.scheme parsed_url) "") then Ok value
          else Raise (ValidationError
            (Msg "The URL isn't valid, it should include the http:// (scheme)"))
      end
  | _ =>
      if truthy value then
        Raise (ValidationError (Msg "Unable to parse the URL."))
      else
        Raise (ValidationError
          (Msg "The URL isn't valid, it should include the http:// (scheme)"))
  end.

Definition Dir_run_validation
    (exists_ : bool) (length : option Z) (value : val) : res val :=
  value ← Type_run_validation string_types length value;
  match value with
  | VStr path =>
      if exists_ && negb (os.isdir E path) then
        Raise (ValidationError
          (Format "The path {0} doesn't exist" [ArgValue value]))
      else Ok (VStr (posixpath.abspath (getcwd E) path))
  | _ => Raise TypeError
  end.

(** [value in names], [names] a list of strings. *)
Definition in_names (value : val) (names : list string) : bool :=
  match value with
  | VStr s => bool_decide (s ∈ names)
  | _ => false
  end.

Definition Theme_run_validation (value : val) : M ConfigOption val :=
  let themes := get_theme_names E in
  if in_names value themes then
    if in_names value ["mkdocs"; "readthedocs"] then mret value
    else
      modify (append_warning
        ("theme",
         Format
           "The theme '{0}' will be removed in an upcoming MkDocs release. See http://www.mkdocs.org/about/release-notes/ for more details"
           [ArgValue value]));;
      mret value
  else raise (ValidationError (Msg "Unrecognised theme.")).

Definition Extras_run_validation (value : val) : res val :=
  if isinstance value [list_t] then Ok value
  else Raise (ValidationError
    (Format "Expected a list, got {0}" [ArgType (type_of value)])).

Definition Pages_run_validation (value : val) : res val :=
  match value with
  | VList l =>
      if Z.of_nat (length l) =? 0 then Ok VNone
      else
        let config_types : gset pytype := list_to_set (type_of <$> l) in
        if bool_decide (config_types ⊆ {[ str_t; OrderedDict_t ]}) then Ok value
        else if bool_decide (config_types ⊆ {[ str_t; list_t ]}) then
          pages_compat_shim E value
        else Raise (ValidationError (Msg "Invalid pages config."))
  | _ =>
      Raise (ValidationError
        (Format "Expected a list, got {0}" [ArgType (type_of value)]))
  end.

(** [self.run_validation(value)], by the class of [self]. *)
Definition run_validation (value : val) : M ConfigOption val :=
  self ← get;
  match class_of self with
  | BaseConfigOption | NumPages _ => mret value
  | Type_ type_ length => lift (Type_run_validation type_ length value)
  | URL | RepoURL => lift (URL_run_validation value)
  | Dir exists_ length | SiteDir exists_ length | ThemeDir exists_ length =>
      lift (Dir_run_validation exists_ length value)
  | Theme => Theme_run_validation value
  | Extras _ => lift (Extras_run_validation value)
  | Pages => lift (Pages_run_validation value)
  end.

(** *** [BaseConfigOption.validate] *)

Definition validate (value : val) : M ConfigOption val :=
  self ← get;
  if is_None value then
    if negb (is_None (default self)) then run_validation (default self)
    else if negb (required self) then mret VNone
    else raise (ValidationError (Msg "Required configuration not provided."))
  else run_validation value.

(** *** [post_validation] *)

(** [urlparse(v).netloc.lower()]: on a false object that is not a [str]
    the parts are [bytes], and the later [split('.')] raises
    [TypeError]. *)
Definition netloc_lower (v : val) : res string :=
  match v with
  | VStr url =>
      match urlsplit E url with
      | Some parsed => Ok (lower E (urlparse.netloc parsed))
      | None => Raise ValueError
      end
  | _ => if truthy v then Raise AttributeError else Raise TypeError
  end.

Definition RepoURL_post_validation (key_name : string) : M Config unit :=
  repo_url ← getitem "repo_url";
  repo_name ← get_or_None "repo_name";
  if negb (is_None repo_url) && is_None repo_name then
    repo_host ← lift (netloc_lower repo_url);
    if String.eqb repo_host "github.com" then
      setitem "repo_name" (VStr "GitHub")
    else if String.eqb repo_host "bitbucket.org" then
      setitem "repo_name" (VStr "Bitbucket")
    else
      setitem "repo_name"
        (VStr (title E (hd "" (str.split repo_host "."))))
  else mret tt.

(** The receiver of [.startswith] has to be a [str], and so has its
    argument. *)
Definition receiver_str (v : val) : res string :=
  match v with VStr s => Ok s | _ => Raise AttributeError end.

Definition argument_str (v : val) : res string :=
  match v with VStr s => Ok s | _ => Raise TypeError end.

Definition SiteDir_post_validation (key_name : string) : M Config unit :=
  docs_dir ← getitem "docs_dir";
  docs_dir ← lift (receiver_str docs_dir);
  site_dir ← getitem "site_dir";
  site_dir ← lift (argument_str site_dir);
  if str.startswith docs_dir site_dir then
    raise (ValidationError
      (Msg "The 'docs_dir' can't be within the 'site_dir'."))
  else if str.startswith site_dir docs_dir then
    raise (ValidationError
      (Msg "The 'site_dir' can't be within the 'docs_dir'."))
  else mret tt.

(** [list.append] through [config['theme_dir']]. *)
Definition append_item (key : string) (x : val) : M Config unit :=
  l ← getitem key;
  match l with
  | VList l => setitem key (VList (l ++ [x]))
  | _ => raise AttributeError
  end.

Definition ThemeDir_post_validation (key_name : string) : M Config unit :=
  config ← get;
  let theme_in_config :=
    existsb (λ c : gmap string val, bool_decide (is_Some (c !! "theme")))
      (user_configs config) in
  let package_dir := package_dir E in
  theme ← getitem "theme";
  theme ← lift (argument_str theme);
  let theme_dir := [VStr (posixpath.join package_dir ["themes"; theme])] in
  setitem "mkdocs_templates"
    (VStr (posixpath.join package_dir ["templates"]));;
  override ← getitem "theme_dir";
  let theme_dir :=
    if negb (is_None override) then
      override :: (if negb theme_in_config then [] else theme_dir)
    else theme_dir in
  setitem "theme_dir" (VList theme_dir);;
  let search_assets := posixpath.join package_dir ["assets"; "search"] in
  append_item "theme_dir" (VStr search_assets).

(** [Extras.walk_docs_dir]: the relative paths in the order the generator
    yields them. *)
Definition walk_docs_dir
    (file_match : string → bool) (docs_dir : string) : list string :=
  '(dirpath, _, filenames) ← os.walk E docs_dir;
  filename ← str.sorted filenames;
  let fullpath := posixpath.join dirpath [filename] in
  let relpath :=
    posixpath.normpath (posixpath.relpath (getcwd E) fullpath docs_dir) in
  if file_match relpath then [relpath] else [].

Definition Extras_post_validation
    (file_match : string → bool) (key_name : string) : M Config unit :=
  current ← getitem key_name;
  if negb (is_None current) then mret tt
  else
    docs_dir ← getitem "docs_dir";
    docs_dir ← lift (argument_str docs_dir);
    let extras :=
      fold_left (λ extras filename, extras ++ [VStr filename])
        (walk_docs_dir file_match docs_dir) [] in
    setitem key_name (VList extras).

(** The loop of [Pages.post_validation]: [insert(0, _)] for an index
    file, [append] for any other. *)
Definition collect_pages (filenames : list string) : list string :=
  fold_left
    (λ pages filename,
       if String.eqb (fst (posixpath.splitext filename)) "index"
       then filename :: pages
       else pages ++ [filename])
    filenames [].

Definition Pages_post_validation (key_name : string) : M Config unit :=
  current ← getitem key_name;
  if negb (is_None current) then mret tt
  else
    docs_dir ← getitem "docs_dir";
    docs_dir ← lift (argument_str docs_dir);
    let pages := collect_pages (walk_docs_dir (is_markdown_file E) docs_dir) in
    setitem key_name (nest_paths E pages).

Definition NumPages_post_validation
    (at_lest : Z) (key_name : string) : M Config unit :=
  current ← getitem key_name;
  if negb (is_None current) then mret tt
  else
    pages ← getitem "pages";
    match len pages with
    | Ok n => setitem key_name (VBool (at_lest <? n))
    | Raise TypeError => setitem key_name (VBool false)
    | Raise e => raise e
    end.

(** [self.post_validation(config, key_name)], by the class of [self]. *)
Definition post_validation
    (self : ConfigOption) (key_name : string) : M Config unit :=
  match class_of self with
  | RepoURL => RepoURL_post_validation key_name
  | SiteDir _ _ => SiteDir_post_validation key_name
  | ThemeDir _ _ => ThemeDir_post_validation key_name
  | Extras file_match => Extras_post_validation file_match key_name
  | Pages => Pages_post_validation key_name
  | NumPages at_lest => NumPages_post_validation at_lest key_name
  | BaseConfigOption | Type_ _ _ | URL | Dir _ _ | Theme => mret tt
  end.

End Options.

(** ** Vocabulary of the statements *)

(** [p] is a string-prefix of [s]. *)
Definition is_prefix (p s : string) : Prop := ∃ r, s = p +:+ r.

(** [sub] occurs in [s]. *)
Definition is_substring (sub s : string) : Prop := ∃ a b, s = a +:+ sub +:+ b.

(** Some layer of [user_configs] has the key [k]. *)
Definition some_layer_has_key (config : Config) (k : string) : Prop :=
  ∃ c : gmap string val, c ∈ user_configs config ∧ is_Some (c !! k).

(** Some layer of [user_configs] has a key in which [sub] occurs. *)
Definition some_layer_key_mentions (config : Config) (sub : string) : Prop :=
  ∃ (c : gmap string val) (k : string),
    c ∈ user_configs config ∧ is_Some (c !! k) ∧ is_substring sub k.

(** The classes that derive from [Dir]. *)
Definition is_Dir_class (c : class) : bool :=
  match c with
  | Dir _ _ | SiteDir _ _ | ThemeDir _ _ => true
  | _ => false
  end.

(** The directories [ThemeDir.post_validation] computes from the place of
    the package. *)
Definition builtin_theme_dir (E : Env) (theme : string) : val :=
  VStr (posixpath.join (package_dir E) ["themes"; theme]).

Definition search_assets_dir (E : Env) : val :=
  VStr (posixpath.join (package_dir E) ["assets"; "search"]).

Definition mkdocs_templates_dir (E : Env) : val :=
  VStr (posixpath.join (package_dir E) ["templates"]).

(** [config] after [config[key] = v]. *)
Definition updated (key : string) (v : val) (config : Config) : Config :=
  {| data := <[key := v]> (data config); user_configs := user_configs config |}.



(** A path the loop of [Pages.post_validation] puts in front. *)
Definition is_index (relpath : string) : bool :=
  String.eqb (fst (posixpath.splitext relpath)) "index".

(** ** An example machine *)

(** A project in [/home/u/proj] whose [docs] holds [index.md], [a.md] and
    [b/c.md], and whose [notes] holds [a.md] and [b/index.md].  Its [manual]
    is deeper, and is listed in no particular order: [z.md], [index.md],
    [b.md], then [guide] with [two.md], [one.md], [logo.png] and
    [deep/x.md], then [api] with [ref.md] and [index.md]. *)
Definition example_project : tree :=
  Tree ["mkdocs.yml"]
    [("docs", Tree ["index.md"; "a.md"] [("b", Tree ["c.md"] [])]);
     ("notes", Tree ["a.md"] [("b", Tree ["index.md"] [])]);
     ("manual",
      Tree ["z.md"; "index.md"; "b.md"]
        [("guide", Tree ["two.md"; "one.md"; "logo.png"] [("deep", Tree ["x.md"] [])]);
         ("api", Tree ["ref.md"; "index.md"] [])])].

Definition example_root : tree :=
  Tree [] [("home", Tree [] [("u", Tree [] [("proj", example_project)])])].

(** The part of a string before its first ['/'], ['?'] or ['#']. *)
Fixpoint up_to_delimiter (s : string) : string :=
  match s with
  | EmptyString => EmptyString
  | String c s' =>
      if (Ascii.eqb c "/" || Ascii.eqb c "?" || Ascii.eqb c "#")%bool
      then EmptyString
      else String c (up_to_delimiter s')
  end.

(** The [urlparse] of the example, a stand-in that is right on the URLs the
    examples use, [scheme://netloc/path] in printable ASCII with a scheme
    made of letters and no bracket in the network location: the scheme is
    what precedes the colon, lower-cased, and the network location runs
    from the two slashes to the first ['/'], ['?'] or ['#'].  Any other
    string it gives no scheme and no network location. *)
Definition example_urlsplit (url : string) : option urlparse.SplitResult :=
  let i := str.find url ":" in
  let scheme := str.take (Z.to_nat i) url in
  let tail := str.drop (Z.to_nat (i + 1)) url in
  if ((0 <? i) && str.all (λ c, str.islower c || str.isupper c) scheme
      && str.startswith tail "//")%bool then
    Some {| urlparse.scheme := str.ascii_lower scheme;
            urlparse.netloc := up_to_delimiter (str.drop 2 tail) |}
  else Some {| urlparse.scheme := ""; urlparse.netloc := "" |}.

(** The collaborators of the example: Markdown files are told by their
    extension, [nest_paths] is stood in for by the flat list of the paths,
    the legacy shim by a function that rejects every list, [urlparse] by
    the splitter above, and the case mappings on text that is not ASCII by
    the identity. *)
Definition example_env : Env :=
  {| getcwd := "/home/u/proj";
     root := example_root;
     package_dir := "/opt/mkdocs";
     get_theme_names := ["mkdocs"; "readthedocs"; "amelia"];
     is_markdown_file :=
       (λ p, bool_decide (snd (posixpath.splitext p) ∈ [".md"; ".markdown"]));
     nest_paths := (λ l, VList (VStr <$> l));
     pages_compat_shim := (λ _, Raise (ValidationError (Msg "legacy")));
     urlsplit := example_urlsplit;
     unicode_lower := (λ s, s);
     unicode_title := (λ s, s) |}.

(** Configurations of the examples. *)
Definition repo_config (repo_url : string) : Config :=
  {| data := {[ "repo_url" := VStr repo_url ]}; user_configs := [] |}.

Definition dirs_config (docs_dir site_dir : string) : Config :=
  {| data := <[ "docs_dir" := VStr docs_dir ]> {[ "site_dir" := VStr site_dir ]};
     user_configs := [] |}.

Definition theme_config (theme_dir : val) (layers : list (gmap string val)) : Config :=
  {| data := <[ "theme" := VStr "mkdocs" ]> {[ "theme_dir" := theme_dir ]};
     user_configs := layers |}.

Definition pages_config (pages : val) : Config :=
  {| data := <[ "pages" := pages ]> {[ "include_nav" := VNone ]};
     user_configs := [] |}.



(** ** Further vocabulary *)

(** [BaseConfigOption.is_required] *)
Definition is_required (self : ConfigOption) : bool := required self.


(** The keys of the configuration that the post-validation of a class
    assigns to. *)
Definition written_keys (c : class) (key_name : string) : list string :=
  match c with
  | RepoURL => ["repo_name"]
  | ThemeDir _ _ => ["mkdocs_templates"; "theme_dir"]
  | Extras _ | Pages | NumPages _ => [key_name]
  | BaseConfigOption | Type_ _ _ | URL | Dir _ _ | SiteDir _ _ | Theme => []
  end.

(** The first key of the configuration that the post-validation of a class
    reads with [config[...]]. *)
Definition first_key_read (c : class) (key_name : string) : option string :=
  match c with
  | RepoURL => Some "repo_url"
  | SiteDir _ _ => Some "docs_dir"
  | ThemeDir _ _ => Some "theme"
  | Extras _ | Pages | NumPages _ => Some key_name
  | BaseConfigOption | Type_ _ _ | URL | Dir _ _ | Theme => None
  end.

(** A computation that, whether it returns or raises, leaves [user_configs]
    alone and changes the configuration at the keys in [keys] only. *)
Definition writes_within {A : Type} (keys : list string) (m : M Config A) : Prop :=
  ∀ config,
    user_configs (snd (m config)) = user_configs config
    ∧ ∀ k, k ∉ keys → data (snd (m config)) !! k = data config !! k.


(** A component of a normalised absolute path: a name that is not empty,
    not ['.'], not ['..'], and has no slash. *)
Definition clean (comp : string) : Prop :=
  comp ≠ "" ∧ comp ≠ "." ∧ comp ≠ ".." ∧ str.contains comp posixpath.sep = false.

(** The body of the loop of [posixpath.normpath]. *)
Definition normpath_step (initial_slashes : nat)
    (new_comps : list string) (comp : string) : list string :=
  if (String.eqb comp "" || String.eqb comp ".")%bool then new_comps
  else if (negb (String.eqb comp "..")
           || (Nat.eqb initial_slashes 0 && bool_decide (new_comps = []))
           || (bool_decide (new_comps ≠ [])
               && bool_decide (last new_comps = Some ".."))) %bool
       then new_comps ++ [comp]
       else removelast new_comps.





(** * Properties *)

(** Running a computation of [M] step by step: the monad operations and the
    accesses to the configuration are unfolded, the lookups are left to be
    rewritten. *)
Create HintDb run discriminated.
#[local] Hint Unfold mbind M_bind mret M_ret raise get modify lift
  getitem get_or_None : run.

Ltac run_M := autounfold with run; simpl.

(** ** Library facts *)

Lemma startswith_is_prefix (s p : string) :
  str.startswith s p = true ↔ is_prefix p s.
Proof.
  revert s. induction p as [|b p IH]; intros s; simpl.
  - split; [intros _; exists s; reflexivity | done].
  - destruct s as [|a s].
    + split; [done | intros [r Hr]; discriminate Hr].
    + destruct (Ascii.eqb_spec a b) as [->|Hne].
      * rewrite IH. split; intros [r Hr]; exists r.
        -- rewrite Hr. reflexivity.
        -- change (String b s = String b (p +:+ r)) in Hr. congruence.
      * split; [done | intros [r Hr]].
        change (String a s = String b (p +:+ r)) in Hr. congruence.
Qed.

Lemma startswith_not_prefix (s p : string) :
  str.startswith s p = false ↔ ¬ is_prefix p s.
Proof.
  rewrite <- startswith_is_prefix. by destruct (str.startswith s p).
Qed.





(** [issubset] of the set of entry types, read on the entries. *)
Lemma config_types_subset (l : list val) (a b : pytype) :
  (list_to_set (type_of <$> l) : gset pytype) ⊆ {[ a; b ]}
  ↔ Forall (λ x, type_of x = a ∨ type_of x = b) l.
Proof.
  rewrite Forall_forall. split.
  - intros H x Hx.
    assert (type_of x ∈ ({[ a; b ]} : gset pytype)) as Hin.
    { apply H, elem_of_list_to_set, list_elem_of_fmap. by exists x. }
    set_solver.
  - intros H t Ht. apply elem_of_list_to_set, list_elem_of_fmap in Ht as (x & -> & Hx).
    destruct (H x Hx) as [-> | ->]; set_solver.
Qed.

(** ** Normalised paths *)

Lemma split_nonempty (s : string) (sep : ascii) : str.split s sep ≠ [].
Proof.
  destruct s as [|c s]; simpl; [done|].
  destruct (Ascii.eqb c sep); [done|]. by destruct (str.split s sep).
Qed.

Lemma split_no_sep (s : string) (sep : ascii) :
  Forall (λ c, str.contains c sep = false) (str.split s sep).
Proof.
  induction s as [|a s IH]; simpl; [by repeat constructor|].
  destruct (Ascii.eqb a sep) eqn:Ha; [by constructor|].
  destruct (str.split s sep) as [|w ws].
  - constructor; [simpl; by rewrite Ha | constructor].
  - inversion IH as [|? ? Hw Hws]; subst. constructor; [|done]. simpl. by rewrite Ha.
Qed.

Lemma split_app (x r : string) (sep : ascii) :
  str.contains x sep = false →
  str.split (x +:+ String sep r) sep = x :: str.split r sep.
Proof.
  induction x as [|a x IH]; simpl.
  - intros _. by rewrite Ascii.eqb_refl.
  - intros [Ha Hx]%orb_false_iff. by rewrite Ha, IH.
Qed.

Lemma split_without_sep (x : string) (sep : ascii) :
  str.contains x sep = false → str.split x sep = [x].
Proof.
  induction x as [|a x IH]; simpl; [done|].
  intros [Ha Hx]%orb_false_iff. by rewrite Ha, IH.
Qed.

(** Splitting at the slashes undoes joining with slashes. *)
Lemma split_join (comps : list string) :
  comps ≠ [] →
  Forall (λ c, str.contains c posixpath.sep = false) comps →
  str.split (str.join "/" comps) posixpath.sep = comps.
Proof.
  induction comps as [|x comps IH]; [done|]. intros _ Hall.
  inversion Hall as [|? ? Hx Hrest]; subst.
  destruct comps as [|y comps].
  - by apply split_without_sep.
  - change (str.join "/" (x :: y :: comps))
      with (x +:+ String posixpath.sep (str.join "/" (y :: comps))).
    rewrite split_app by done. by rewrite IH.
Qed.

Lemma join_clean_no_leading_slash (comps : list string) :
  Forall clean comps → str.startswith (str.join "/" comps) "/" = false.
Proof.
  destruct 1 as [|x comps (Hne & _ & _ & Hsep) _]; [done|].
  assert (str.startswith x "/" = false) as Hx.
  { destruct x as [|a x]; [done|]. unfold posixpath.sep in *. simpl in *.
    apply orb_false_iff in Hsep as [Ha _]. by rewrite Ha. }
  destruct comps as [|y comps]; [done|].
  change (str.join "/" (x :: y :: comps))
    with (x +:+ String posixpath.sep (str.join "/" (y :: comps))).
  destruct x as [|a x]; [done|]. simpl in *. by destruct (Ascii.eqb a "/").
Qed.

Lemma normpath_unfold (path : string) :
  posixpath.normpath path =
  if String.eqb path "" then "."
  else
    let initial_slashes : nat :=
      if str.startswith path "/" then
        if (str.startswith path "//" && negb (str.startswith path "///"))%bool
        then 2%nat else 1%nat
      else 0%nat in
    let new_comps :=
      fold_left (normpath_step initial_slashes)
        (str.split path posixpath.sep) [] in
    let path := str.take initial_slashes "//" +:+ str.join "/" new_comps in
    if String.eqb path "" then "." else path.
Proof. reflexivity. Qed.

(** With a leading slash, the loop collects clean components only. *)
Lemma normpath_step_clean (initial_slashes : nat) (comps acc : list string) :
  initial_slashes ≠ 0%nat →
  Forall (λ c, str.contains c posixpath.sep = false) comps →
  Forall clean acc →
  Forall clean (fold_left (normpath_step initial_slashes) comps acc).
Proof.
  intros Hinit Hcomps. revert acc.
  induction Hcomps as [|comp comps Hcomp _ IH]; intros acc Hacc; simpl; [done|].
  apply IH. unfold normpath_step.
  destruct (String.eqb_spec comp "") as [|Hempty]; [done|].
  destruct (String.eqb_spec comp ".") as [|Hdot]; [done|]. simpl.
  destruct (String.eqb_spec comp "..") as [->|Hup]; simpl.
  - destruct initial_slashes; [done|]. simpl.
    assert (last acc ≠ Some "..") as Hlast.
    { intros Hl. apply last_Some in Hl as [acc' ->].
      apply Forall_app in Hacc as [_ Hl]. inversion Hl as [|? ? (_ & _ & H & _) _].
      done. }
    rewrite (bool_decide_eq_false_2 _ Hlast), andb_false_r.
    clear Hlast. induction Hacc as [|x acc Hx Hacc IHacc]; [done|].
    destruct acc; [done|]. by constructor.
  - apply Forall_app. split; [done|]. by repeat constructor.
Qed.

(** Clean components all go through the loop. *)
Lemma normpath_step_keeps (initial_slashes : nat) (comps acc : list string) :
  Forall clean comps →
  fold_left (normpath_step initial_slashes) comps acc = acc ++ comps.
Proof.
  intros Hcomps. revert acc.
  induction Hcomps as [|comp comps (Hempty & Hdot & Hup & _) _ IH];
    intros acc; simpl; [by rewrite app_nil_r|].
  assert (normpath_step initial_slashes acc comp = acc ++ [comp]) as ->.
  { unfold normpath_step.
    destruct (String.eqb_spec comp ""); [done|].
    destruct (String.eqb_spec comp "."); [done|].
    destruct (String.eqb_spec comp ".."); done. }
  by rewrite IH, <- app_assoc.
Qed.

(** [normpath] of a path that starts with a slash: one or two slashes, then
    clean components joined with slashes. *)
Lemma normpath_absolute (path : string) :
  str.startswith path "/" = true →
  ∃ (initial_slashes : nat) (comps : list string),
    (initial_slashes = 1 ∨ initial_slashes = 2)%nat
    ∧ Forall clean comps
    ∧ posixpath.normpath path
      = str.take initial_slashes "//" +:+ str.join "/" comps.
Proof.
  intros Habs. rewrite normpath_unfold.
  destruct (String.eqb_spec path "") as [->|_]; [done|].
  rewrite Habs. cbv zeta.
  set (initial_slashes := if (_ && _)%bool then 2%nat else 1%nat).
  assert ((initial_slashes = 1 ∨ initial_slashes = 2)%nat) as Hinit.
  { unfold initial_slashes. destruct (_ && _)%bool; auto. }
  exists initial_slashes, (fold_left (normpath_step initial_slashes)
                          (str.split path posixpath.sep) []).
  split; [done|]. split.
  - apply normpath_step_clean; [lia | apply split_no_sep | constructor].
  - by destruct Hinit as [-> | ->].
Qed.

(** Such a path is a fixed point of [normpath]. *)
Lemma normpath_fixed (initial_slashes : nat) (comps : list string) :
  (initial_slashes = 1 ∨ initial_slashes = 2)%nat →
  Forall clean comps →
  posixpath.normpath (str.take initial_slashes "//" +:+ str.join "/" comps)
  = str.take initial_slashes "//" +:+ str.join "/" comps.
Proof.
  intros Hinit Hclean.
  pose proof (join_clean_no_leading_slash comps Hclean) as Hlead.
  assert (str.split (str.join "/" comps) posixpath.sep = comps
          ∨ (comps = [] ∧ str.split (str.join "/" comps) posixpath.sep = [""]))
    as Hsplit.
  { destruct comps as [|x comps]; [by right|]. left.
    apply split_join; [done|].
    eapply Forall_impl; [exact Hclean|]. by intros c (_ & _ & _ & Hc). }
  assert (fold_left (normpath_step initial_slashes)
            (str.split (str.join "/" comps) posixpath.sep) [] = comps) as Hfold.
  { destruct Hsplit as [-> | [-> ->]]; [|done].
    by rewrite normpath_step_keeps. }
  rewrite normpath_unfold. cbv zeta.
  set (j := str.join "/" comps) in *.
  destruct Hinit as [-> | ->].
  - change (str.take 1 "//" +:+ j) with (String "/" j).
    change (String.eqb (String "/" j) "") with false.
    change (str.startswith (String "/" j) "/") with true.
    change (str.startswith (String "/" j) "//") with (str.startswith j "/").
    rewrite Hlead. cbv iota. simpl (false && _)%bool. cbv iota.
    change (str.split (String "/" j) posixpath.sep)
      with ("" :: str.split j posixpath.sep).
    change (fold_left (normpath_step 1) ("" :: str.split j posixpath.sep) [])
      with (fold_left (normpath_step 1) (str.split j posixpath.sep) []).
    by rewrite Hfold.
  - change (str.take 2 "//" +:+ j) with (String "/" (String "/" j)).
    change (String.eqb (String "/" (String "/" j)) "") with false.
    change (str.startswith (String "/" (String "/" j)) "/") with true.
    change (str.startswith (String "/" (String "/" j)) "//") with true.
    change (str.startswith (String "/" (String "/" j)) "///")
      with (str.startswith j "/").
    rewrite Hlead. cbv iota. simpl (true && _)%bool. cbv iota.
    change (str.split (String "/" (String "/" j)) posixpath.sep)
      with ("" :: "" :: str.split j posixpath.sep).
    change (fold_left (normpath_step 2) ("" :: "" :: str.split j posixpath.sep) [])
      with (fold_left (normpath_step 2) (str.split j posixpath.sep) []).
    by rewrite Hfold.
Qed.

Lemma startswith_app (s r p : string) :
  str.startswith s p = true → str.startswith (s +:+ r) p = true.
Proof.
  revert s. induction p as [|b p IH]; intros [|a s]; simpl; try done.
  destruct (Ascii.eqb a b); [apply IH | done].
Qed.

(** [abspath] gives an absolute path, and gives it back unchanged, when the
    working directory is absolute. *)
Lemma abspath_absolute (cwd path : string) :
  str.startswith cwd "/" = true →
  ∃ (initial_slashes : nat) (comps : list string),
    (initial_slashes = 1 ∨ initial_slashes = 2)%nat
    ∧ Forall clean comps
    ∧ posixpath.abspath cwd path
      = str.take initial_slashes "//" +:+ str.join "/" comps.
Proof.
  intros Hcwd. unfold posixpath.abspath, posixpath.isabs.
  destruct (str.startswith path "/") eqn:Hpath; [by apply normpath_absolute|].
  apply normpath_absolute. unfold posixpath.join. cbn [fold_left]. rewrite Hpath.
  destruct (_ || _)%bool; by apply startswith_app.
Qed.

Lemma abspath_startswith_slash (cwd path : string) :
  str.startswith cwd "/" = true →
  str.startswith (posixpath.abspath cwd path) "/" = true.
Proof.
  intros Hcwd.
  destruct (abspath_absolute cwd path Hcwd) as (i & comps & [-> | ->] & _ & ->);
    reflexivity.
Qed.

Lemma abspath_idempotent (cwd path : string) :
  str.startswith cwd "/" = true →
  posixpath.abspath cwd (posixpath.abspath cwd path) = posixpath.abspath cwd path.
Proof.
  intros Hcwd.
  pose proof (abspath_startswith_slash cwd path Hcwd) as Habs.
  destruct (abspath_absolute cwd path Hcwd) as (i & comps & Hi & Hclean & Heq).
  unfold posixpath.abspath at 1, posixpath.isabs. rewrite Habs, Heq.
  by apply normpath_fixed.
Qed.

(** ** The walk of the docs directory *)





























(** ** [validate] *)

Section Validate.

Variable E : Env.

Lemma run_validation_unfold (value : val) (self : ConfigOption) :
  run_validation E value self =
  match class_of self with
  | BaseConfigOption | NumPages _ => (Ok value, self)
  | Type_ type_ length => (Type_run_validation type_ length value, self)
  | URL | RepoURL => (URL_run_validation E value, self)
  | Dir exists_ length | SiteDir exists_ length | ThemeDir exists_ length =>
      (Dir_run_validation E exists_ length value, self)
  | Theme => Theme_run_validation E value self
  | Extras _ => (Extras_run_validation value, self)
  | Pages => (Pages_run_validation E value, self)
  end.
Proof. unfold run_validation. run_M. by destruct (class_of self). Qed.

Lemma validate_supplied (value : val) (self : ConfigOption) :
  value ≠ VNone → validate E value self = run_validation E value self.
Proof. intros Hv. unfold validate. run_M. by destruct value. Qed.

Lemma validate_absent (self : ConfigOption) :
  validate E VNone self =
  if negb (is_None (default self)) then run_validation E (default self) self
  else if negb (required self) then (Ok VNone, self)
  else (Raise (ValidationError (Msg "Required configuration not provided.")), self).
Proof.
  unfold validate. run_M.
  destruct (is_None (default self)); [|done]. by destruct (required self).
Qed.

Lemma Type_run_validation_Ok type_ length value v :
  Type_run_validation type_ length value = Ok v → v = value.
Proof.
  unfold Type_run_validation. destruct (isinstance value type_); [|done]; simpl.
  destruct length as [n|]; [|congruence].
  destruct (len value) as [k|]; [|done]; simpl.
  destruct (k =? n); simpl; congruence.
Qed.

Lemma Dir_run_validation_Ok exists_ length value v :
  Dir_run_validation E exists_ length value = Ok v →
  ∃ path, value = VStr path ∧ v = VStr (posixpath.abspath (getcwd E) path).
Proof.
  unfold Dir_run_validation.
  destruct (Type_run_validation string_types length value) as [v'|] eqn:Ht; [|done].
  apply Type_run_validation_Ok in Ht as ->. simpl.
  destruct value as [| | |path| | |]; try done.
  destruct (exists_ && negb (os.isdir E path)); [done|].
  intros [= <-]. by exists path.
Qed.

Lemma URL_run_validation_Ok value v : URL_run_validation E value = Ok v → v = value.
Proof.
  unfold URL_run_validation. destruct value as [| | |url| | |];
    try (by destruct (truthy _)).
  destruct (urlsplit E url) as [r|]; [|done].
  destruct (String.eqb _ _); simpl; congruence.
Qed.

Lemma Theme_run_validation_Ok value self v :
  fst (Theme_run_validation E value self) = Ok v → v = value.
Proof.
  unfold Theme_run_validation. destruct (in_names value (get_theme_names E)); [|done].
  destruct (in_names value _); simpl; congruence.
Qed.

Lemma Extras_run_validation_Ok value v : Extras_run_validation value = Ok v → v = value.
Proof. unfold Extras_run_validation. destruct (isinstance _ _); congruence. Qed.

End Validate.

(** C3: an option with no declared default, validated on an absent raw
    value, raises [ValidationError("Required configuration not provided.")]
    when it is required, whatever its class and other attributes, and
    otherwise resolves to [None] without running the check of its class
    (the option object is left as it was). *)
Theorem validate_absent_without_default (E : Env) (self : ConfigOption) :
  default self = VNone →
  validate E VNone self =
    if required self
    then (Raise (ValidationError (Msg "Required configuration not provided.")), self)
    else (Ok VNone, self).
Proof.
  intros Hd. rewrite validate_absent, Hd. simpl. by destruct (required self).
Qed.

Lemma validate_absent_without_default_witness :
  validate example_env VNone (new (Type_ [str_t] None) VNone true)
  = (Raise (ValidationError (Msg "Required configuration not provided.")),
     new (Type_ [str_t] None) VNone true)
  ∧ validate example_env VNone (new (Type_ [str_t] None) VNone false)
    = (Ok VNone, new (Type_ [str_t] None) VNone false).
Proof.
  split.
  - exact (validate_absent_without_default example_env
             (new (Type_ [str_t] None) VNone true) eq_refl).
  - exact (validate_absent_without_default example_env
             (new (Type_ [str_t] None) VNone false) eq_refl).
Defined.

(** The check that C3 skips would have rejected [None]. *)
Example skipped_check_rejects_None :
  fst (run_validation example_env VNone (new (Type_ [str_t] None) VNone false))
  = Raise (ValidationError
      (Format "Expected type: {0} but recieved: {1}"
         [ArgTypes [str_t]; ArgType NoneType])).
Proof. reflexivity. Qed.

(** C2 as stated fails: a [Dir] option with the default ['docs'] returns the
    absolute path, not the default. *)
Lemma validate_default_of_Dir_is_made_absolute :
  let self := new (Dir false None) (VStr "docs") false in
  default self ≠ VNone
  ∧ fst (validate example_env VNone self) = Ok (VStr "/home/u/proj/docs")
  ∧ fst (validate example_env VNone self) ≠ Ok (default self).
Proof. repeat split; [discriminate | vm_compute; discriminate]. Qed.

(** C2, amended: with a declared default, [validate] on an absent raw value
    is [run_validation] on the default.  For the classes other than [Pages]
    and those deriving from [Dir], a result is the default unchanged; for
    [Dir], [SiteDir] and [ThemeDir], a result is the absolute path of the
    default; the base class and [NumPages] always return the default. *)
Theorem validate_absent_with_default (E : Env) (self : ConfigOption) :
  default self ≠ VNone →
  validate E VNone self = run_validation E (default self) self
  ∧ (∀ v, is_Dir_class (class_of self) = false → class_of self ≠ Pages →
       fst (validate E VNone self) = Ok v → v = default self)
  ∧ (∀ v, is_Dir_class (class_of self) = true →
       fst (validate E VNone self) = Ok v →
       ∃ path, default self = VStr path
               ∧ v = VStr (posixpath.abspath (getcwd E) path))
  ∧ (class_of self = BaseConfigOption ∨ (∃ n, class_of self = NumPages n) →
       validate E VNone self = (Ok (default self), self)).
Proof.
  intros Hd.
  assert (validate E VNone self = run_validation E (default self) self) as Hv.
  { rewrite validate_absent. by destruct (default self). }
  rewrite Hv, run_validation_unfold. split; [done|].
  split; [|split].
  - intros v Hdir Hpages. destruct (class_of self); simpl in *; try done.
    + intros [= <-]; done.
    + apply Type_run_validation_Ok.
    + apply URL_run_validation_Ok.
    + apply URL_run_validation_Ok.
    + apply Theme_run_validation_Ok.
    + apply Extras_run_validation_Ok.
    + intros [= <-]; done.
  - intros v Hdir. destruct (class_of self); simpl in *; try done;
      apply Dir_run_validation_Ok.
  - intros [-> | [n ->]]; done.
Qed.

Lemma validate_absent_with_default_witness :
  validate example_env VNone (new (Dir false None) (VStr "docs") false)
  = (Ok (VStr "/home/u/proj/docs"), new (Dir false None) (VStr "docs") false)
  ∧ validate example_env VNone (new Theme (VStr "mkdocs") false)
    = (Ok (VStr "mkdocs"), new Theme (VStr "mkdocs") false).
Proof.
  split.
  - pose proof (validate_absent_with_default example_env
                  (new (Dir false None) (VStr "docs") false)
                  ltac:(discriminate)) as [H _].
    rewrite H. reflexivity.
  - pose proof (validate_absent_with_default example_env
                  (new Theme (VStr "mkdocs") false)
                  ltac:(discriminate)) as [H _].
    rewrite H. reflexivity.
Defined.

(** C7: on a supplied raw value, the validation of [Pages] raises
    [ValidationError] on what is not a list, resolves the empty list to
    [None], returns a non-empty list of strings and ordered mappings
    unchanged, hands a non-empty list of strings and lists (with a list in
    it) to the legacy shim, and raises [ValidationError] on any other
    mixture. *)
Theorem Pages_validation_classifies (E : Env) (self : ConfigOption) (value : val) :
  class_of self = Pages →
  value ≠ VNone →
  ((∀ l, value ≠ VList l) →
     validate E value self
     = (Raise (ValidationError
                 (Format "Expected a list, got {0}" [ArgType (type_of value)])),
        self))
  ∧ (value = VList [] → validate E value self = (Ok VNone, self))
  ∧ (∀ l, value = VList l → l ≠ [] →
       (Forall (λ x, type_of x = str_t ∨ type_of x = OrderedDict_t) l →
          validate E value self = (Ok value, self))
       ∧ (Forall (λ x, type_of x = str_t ∨ type_of x = list_t) l →
          Exists (λ x, type_of x = list_t) l →
          validate E value self = (pages_compat_shim E value, self))
       ∧ (¬ Forall (λ x, type_of x = str_t ∨ type_of x = OrderedDict_t) l →
          ¬ Forall (λ x, type_of x = str_t ∨ type_of x = list_t) l →
          validate E value self
          = (Raise (ValidationError (Msg "Invalid pages config.")), self))).
Proof.
  intros Hc Hv. rewrite (validate_supplied E value self Hv), run_validation_unfold, Hc.
  split; [|split].
  - intros Hl. destruct value; try reflexivity. by destruct (Hl l).
  - by intros ->.
  - intros l -> Hne. unfold Pages_run_validation.
    destruct l as [|x l]; [done|]. simpl (Z.of_nat _ =? 0).
    repeat case_bool_decide;
      repeat match goal with
             | H : _ ⊆ _ |- _ => apply config_types_subset in H
             | H : ¬ (_ ⊆ _) |- _ => rewrite config_types_subset in H
             end;
      repeat split; try done.
    intros Hlist Hex. apply Exists_exists in Hex as (y & Hy & Hty).
    match goal with H : Forall _ _ |- _ =>
      rewrite Forall_forall in H; destruct (H y Hy); congruence end.
Qed.

Lemma Pages_validation_classifies_witness :
  validate example_env (VList [VStr "index.md"; VOrderedDict [("About", VStr "about.md")]])
    (new Pages VNone false)
  = (Ok (VList [VStr "index.md"; VOrderedDict [("About", VStr "about.md")]]),
     new Pages VNone false)
  ∧ validate example_env
      (VList [VList [VStr "index.md"]; VOrderedDict [("About", VStr "about.md")]])
      (new Pages VNone false)
    = (Raise (ValidationError (Msg "Invalid pages config.")), new Pages VNone false).
Proof.
  split.
  - pose proof (Pages_validation_classifies example_env (new Pages VNone false)
                  (VList [VStr "index.md"; VOrderedDict [("About", VStr "about.md")]])
                  eq_refl ltac:(discriminate)) as (_ & _ & H).
    pose proof (H _ eq_refl ltac:(discriminate)) as (Hcurrent & _).
    apply Hcurrent.
    constructor; [by left|]. constructor; [by right|]. constructor.
  - pose proof (Pages_validation_classifies example_env (new Pages VNone false)
                  (VList [VList [VStr "index.md"];
                          VOrderedDict [("About", VStr "about.md")]])
                  eq_refl ltac:(discriminate)) as (_ & _ & H).
    pose proof (H _ eq_refl ltac:(discriminate)) as (_ & _ & Hmixed).
    apply Hmixed.
    + intros Hall. inversion Hall as [|? ? [Hx|Hx] _]; discriminate.
    + intros Hall. inversion Hall as [|? ? _ Hrest].
      inversion Hrest as [|? ? [Hx|Hx] _]; discriminate.
Defined.

(** C10: a non-empty list of plain strings is returned unchanged by the
    validation of [Pages], whatever the legacy shim would do with it: its
    set of entry types passes both subset tests, and the test for the
    current format comes first. *)
Theorem Pages_all_strings_unchanged (E : Env) (self : ConfigOption) (l : list val) :
  class_of self = Pages →
  l ≠ [] →
  Forall (λ x, type_of x = str_t) l →
  (list_to_set (type_of <$> l) : gset pytype) ⊆ {[ str_t; OrderedDict_t ]}
  ∧ (list_to_set (type_of <$> l) : gset pytype) ⊆ {[ str_t; list_t ]}
  ∧ validate E (VList l) self = (Ok (VList l), self).
Proof.
  intros Hc Hne Hstr.
  assert (Forall (λ x, type_of x = str_t ∨ type_of x = OrderedDict_t) l) as H1.
  { eapply Forall_impl; [exact Hstr | auto]. }
  assert (Forall (λ x, type_of x = str_t ∨ type_of x = list_t) l) as H2.
  { eapply Forall_impl; [exact Hstr | auto]. }
  split; [by apply config_types_subset|]. split; [by apply config_types_subset|].
  rewrite validate_supplied, run_validation_unfold, Hc by done.
  unfold Pages_run_validation. destruct l as [|x l]; [done|]. simpl (Z.of_nat _ =? 0).
  rewrite bool_decide_true; [done|]. by apply config_types_subset.
Qed.

Lemma Pages_all_strings_unchanged_witness :
  pages_compat_shim example_env (VList [VStr "index.md"; VStr "about.md"])
  ≠ Ok (VList [VStr "index.md"; VStr "about.md"])
  ∧ validate example_env (VList [VStr "index.md"; VStr "about.md"]) (new Pages VNone false)
    = (Ok (VList [VStr "index.md"; VStr "about.md"]), new Pages VNone false).
Proof.
  split; [discriminate|].
  pose proof (Pages_all_strings_unchanged example_env (new Pages VNone false)
                [VStr "index.md"; VStr "about.md"]
                eq_refl ltac:(discriminate) ltac:(repeat constructor))
    as (_ & _ & H).
  exact H.
Defined.

(** ** [RepoURL.post_validation] *)

(** [s.split('.')[0]] is the part of [s] before its first dot. *)
Lemma first_label (s : string) :
  ∃ rest, s = hd "" (str.split s ".") +:+ rest
          ∧ str.contains (hd "" (str.split s ".")) "." = false
          ∧ (rest = "" ∨ str.startswith rest "." = true).
Proof.
  induction s as [|c s (rest & Hs & Hdot & Hrest)]; simpl.
  - exists "". auto.
  - destruct (Ascii.eqb c ".") eqn:Hc; simpl.
    + apply Ascii.eqb_eq in Hc as ->. exists (String "." s). auto.
    + pose proof (split_nonempty s ".") as Hne.
      destruct (str.split s ".") as [|w ws]; [done|]. simpl in *.
      exists rest. rewrite Hc. split; [|auto].
      change (String c s = String c (w +:+ rest)). by rewrite <- Hs.
Qed.

(** A string has one first label. *)
Lemma first_label_unique (l1 r1 l2 r2 : string) :
  l1 +:+ r1 = l2 +:+ r2 →
  str.contains l1 "." = false → r1 = "" ∨ str.startswith r1 "." = true →
  str.contains l2 "." = false → r2 = "" ∨ str.startswith r2 "." = true →
  l1 = l2.
Proof.
  revert l2. induction l1 as [|c l1 IH]; intros [|c' l2];
    change (String ?a ?s +:+ ?r) with (String a (s +:+ r));
    change ("" +:+ ?r) with r; simpl; intros Heq Hl1 Hr1 Hl2 Hr2.
  - done.
  - subst r1. destruct Hr1 as [?|Hdot]; [done|].
    by destruct (Ascii.eqb c' ".").
  - subst r2. destruct Hr2 as [?|Hdot]; [done|].
    by destruct (Ascii.eqb c ".").
  - injection Heq as -> Heq.
    apply orb_false_iff in Hl1 as [_ Hl1]. apply orb_false_iff in Hl2 as [_ Hl2].
    f_equal. by apply (IH l2).
Qed.

Lemma RepoURL_post_validation_derives (E : Env) (key_name : string)
    (config : Config) (url : string) (parsed : urlparse.SplitResult) :
  data config !! "repo_url" = Some (VStr url) →
  from_option id VNone (data config !! "repo_name") = VNone →
  urlsplit E url = Some parsed →
  let location := lower E (urlparse.netloc parsed) in
  RepoURL_post_validation E key_name config =
    (Ok tt,
     updated "repo_name"
       (VStr (if String.eqb location "github.com" then "GitHub"
              else if String.eqb location "bitbucket.org" then "Bitbucket"
              else title E (hd "" (str.split location "."))))
       config).
Proof.
  intros Hurl Hname Hparsed location.
  unfold RepoURL_post_validation. run_M.
  rewrite Hurl, Hname. simpl. rewrite Hparsed. fold location.
  destruct (String.eqb location "github.com"); [done|].
  by destruct (String.eqb location "bitbucket.org").
Qed.

(** C1 as stated fails twice.  For ['https://git.example.com/x'] the derived
    name is ['Git'], the title-cased first label, not ['Example'].  And the
    name is derived from the network location, not from the host: for
    ['https://github.com:443/x/y'], whose host is ['github.com'], the
    network location is ['github.com:443'] and the derived name is
    ['Github'], not ['GitHub']. *)
Lemma repo_name_of_git_example_com :
  (let config := repo_config "https://git.example.com/x" in
   data config !! "repo_url" = Some (VStr "https://git.example.com/x")
   ∧ data config !! "repo_name" = None
   ∧ ∃ config',
       post_validation example_env (new RepoURL VNone false) "repo_url" config
       = (Ok tt, config')
       ∧ data config' !! "repo_name" = Some (VStr "Git")
       ∧ data config' !! "repo_name" ≠ Some (VStr "Example"))
  ∧ (let config := repo_config "https://github.com:443/x/y" in
     data config !! "repo_url" = Some (VStr "https://github.com:443/x/y")
     ∧ data config !! "repo_name" = None
     ∧ urlsplit example_env "https://github.com:443/x/y"
       = Some {| urlparse.scheme := "https"; urlparse.netloc := "github.com:443" |}
     ∧ ∃ config',
         post_validation example_env (new RepoURL VNone false) "repo_url" config
         = (Ok tt, config')
         ∧ data config' !! "repo_name" = Some (VStr "Github")
         ∧ data config' !! "repo_name" ≠ Some (VStr "GitHub")).
Proof.
  split.
  - split; [reflexivity|]. split; [reflexivity|].
    eexists. split; [reflexivity|]. split; [reflexivity|]. vm_compute. discriminate.
  - split; [reflexivity|]. split; [reflexivity|]. split; [reflexivity|].
    eexists. split; [reflexivity|]. split; [reflexivity|]. vm_compute. discriminate.
Qed.

(** C1, amended: when [repo_url] is a string that [urlparse] splits and
    [repo_name] is unset, [RepoURL.post_validation] sets [repo_name] from
    the lower-cased network location of the URL (the host with any user
    information and port): ['GitHub'] for ['github.com'], ['Bitbucket'] for
    ['bitbucket.org'], and otherwise the title-cased part before the first
    dot. *)
Theorem RepoURL_derives_repo_name (E : Env) (self : ConfigOption)
    (key_name : string) (config : Config) (url : string)
    (parsed : urlparse.SplitResult) :
  class_of self = RepoURL →
  data config !! "repo_url" = Some (VStr url) →
  data config !! "repo_name" = None ∨ data config !! "repo_name" = Some VNone →
  urlsplit E url = Some parsed →
  let location := lower E (urlparse.netloc parsed) in
  ∃ name,
    post_validation E self key_name config
    = (Ok tt, updated "repo_name" (VStr name) config)
    ∧ (location = "github.com" → name = "GitHub")
    ∧ (location = "bitbucket.org" → name = "Bitbucket")
    ∧ (location ≠ "github.com" → location ≠ "bitbucket.org" →
       ∃ label rest,
         location = label +:+ rest
         ∧ str.contains label "." = false
         ∧ (rest = "" ∨ str.startswith rest "." = true)
         ∧ name = title E label).
Proof.
  intros Hc Hurl Hname Hparsed location.
  eexists. split.
  - unfold post_validation. rewrite Hc.
    apply (RepoURL_post_validation_derives E key_name config url parsed);
      [done | | done].
    by destruct Hname as [-> | ->].
  - fold location.
    destruct (String.eqb_spec location "github.com") as [->|Hgh];
      [repeat split; done|].
    destruct (String.eqb_spec location "bitbucket.org") as [->|Hbb];
      [repeat split; done|].
    repeat split; try done. intros _ _.
    destruct (first_label location) as (rest & Hs & Hdot & Hrest).
    by exists (hd "" (str.split location ".")), rest.
Qed.

Lemma RepoURL_derives_repo_name_witness :
  post_validation example_env (new RepoURL VNone false) "repo_url"
    (repo_config "https://github.com/x/y")
  = (Ok tt, updated "repo_name" (VStr "GitHub") (repo_config "https://github.com/x/y"))
  ∧ post_validation example_env (new RepoURL VNone false) "repo_url"
      (repo_config "https://BitBucket.org/x/y")
    = (Ok tt, updated "repo_name" (VStr "Bitbucket")
                (repo_config "https://BitBucket.org/x/y"))
  ∧ post_validation example_env (new RepoURL VNone false) "repo_url"
      (repo_config "https://git.example.com/x")
    = (Ok tt, updated "repo_name" (VStr "Git")
                (repo_config "https://git.example.com/x"))
  ∧ post_validation example_env (new RepoURL VNone false) "repo_url"
      (repo_config "https://github.com:443/x/y")
    = (Ok tt, updated "repo_name" (VStr "Github")
                (repo_config "https://github.com:443/x/y")).
Proof.
  split; [|split; [|split]].
  - pose proof (RepoURL_derives_repo_name example_env (new RepoURL VNone false)
                  "repo_url" (repo_config "https://github.com/x/y")
                  "https://github.com/x/y" _
                  eq_refl eq_refl (or_introl eq_refl) eq_refl)
      as (name & Hpost & Hgithub & _).
    rewrite Hpost. rewrite (Hgithub eq_refl). reflexivity.
  - pose proof (RepoURL_derives_repo_name example_env (new RepoURL VNone false)
                  "repo_url" (repo_config "https://BitBucket.org/x/y")
                  "https://BitBucket.org/x/y" _
                  eq_refl eq_refl (or_introl eq_refl) eq_refl)
      as (name & Hpost & _ & Hbitbucket & _).
    rewrite Hpost. rewrite (Hbitbucket eq_refl). reflexivity.
  - pose proof (RepoURL_derives_repo_name example_env (new RepoURL VNone false)
                  "repo_url" (repo_config "https://git.example.com/x")
                  "https://git.example.com/x" _
                  eq_refl eq_refl (or_introl eq_refl) eq_refl)
      as (name & Hpost & _ & _ & Hother).
    destruct Hother as (label & rest & Hloc & Hlabel & Hrest & Hname);
      [discriminate | discriminate |].
    rewrite Hpost, Hname.
    rewrite (first_label_unique label rest "git" ".example.com"
               (eq_sym Hloc) Hlabel Hrest eq_refl (or_intror eq_refl)).
    reflexivity.
  - pose proof (RepoURL_derives_repo_name example_env (new RepoURL VNone false)
                  "repo_url" (repo_config "https://github.com:443/x/y")
                  "https://github.com:443/x/y" _
                  eq_refl eq_refl (or_introl eq_refl) eq_refl)
      as (name & Hpost & _ & _ & Hother).
    destruct Hother as (label & rest & Hloc & Hlabel & Hrest & Hname);
      [discriminate | discriminate |].
    rewrite Hpost, Hname.
    rewrite (first_label_unique label rest "github" ".com:443"
               (eq_sym Hloc) Hlabel Hrest eq_refl (or_intror eq_refl)).
    reflexivity.
Defined.

(** ** [SiteDir.post_validation] *)

(** C4: for strings [D] in [docs_dir] and [S] in [site_dir],
    [SiteDir.post_validation] raises [ValidationError] when [S] is a prefix
    of [D], raises [ValidationError] with another message when [D] is a
    prefix of [S] (and [S] is not one of [D]), and returns, leaving the
    configuration alone, when neither is a prefix of the other. *)
Theorem SiteDir_containment (E : Env) (self : ConfigOption) (key_name : string)
    (config : Config) (exists_ : bool) (length : option Z) (D S : string) :
  class_of self = SiteDir exists_ length →
  data config !! "docs_dir" = Some (VStr D) →
  data config !! "site_dir" = Some (VStr S) →
  let docs_within_site := Msg "The 'docs_dir' can't be within the 'site_dir'." in
  let site_within_docs := Msg "The 'site_dir' can't be within the 'docs_dir'." in
  docs_within_site ≠ site_within_docs
  ∧ (is_prefix D S ∨ is_prefix S D →
     ∃ msg, post_validation E self key_name config
            = (Raise (ValidationError msg), config))
  ∧ (is_prefix S D →
     post_validation E self key_name config
     = (Raise (ValidationError docs_within_site), config))
  ∧ (is_prefix D S → ¬ is_prefix S D →
     post_validation E self key_name config
     = (Raise (ValidationError site_within_docs), config))
  ∧ (¬ is_prefix D S → ¬ is_prefix S D →
     post_validation E self key_name config = (Ok tt, config)).
Proof.
  intros Hc Hdocs Hsite docs_within_site site_within_docs.
  assert (post_validation E self key_name config =
          if str.startswith D S then (Raise (ValidationError docs_within_site), config)
          else if str.startswith S D then (Raise (ValidationError site_within_docs), config)
          else (Ok tt, config)) as ->.
  { unfold post_validation. rewrite Hc.
    unfold SiteDir_post_validation. run_M.
    rewrite Hdocs; simpl. rewrite Hsite; simpl.
    destruct (str.startswith D S); [done|]. by destruct (str.startswith S D). }
  split; [discriminate|].
  destruct (str.startswith D S) eqn:HSD, (str.startswith S D) eqn:HDS;
    repeat match goal with
           | H : str.startswith _ _ = true |- _ => apply startswith_is_prefix in H
           | H : str.startswith _ _ = false |- _ => apply startswith_not_prefix in H
           end;
    repeat split; intros; try done; try (eexists; reflexivity); tauto.
Qed.

Lemma SiteDir_containment_witness :
  post_validation example_env (new (SiteDir false None) (VStr "site") false) "site_dir"
    (dirs_config "/home/u/proj/docs" "/home/u/proj/site")
  = (Ok tt, dirs_config "/home/u/proj/docs" "/home/u/proj/site")
  ∧ post_validation example_env (new (SiteDir false None) (VStr "site") false) "site_dir"
      (dirs_config "/home/u/proj/docs" "/home/u/proj/docs/site")
    = (Raise (ValidationError (Msg "The 'site_dir' can't be within the 'docs_dir'.")),
       dirs_config "/home/u/proj/docs" "/home/u/proj/docs/site").
Proof.
  split.
  - pose proof (SiteDir_containment example_env
                  (new (SiteDir false None) (VStr "site") false) "site_dir"
                  (dirs_config "/home/u/proj/docs" "/home/u/proj/site")
                  false None "/home/u/proj/docs" "/home/u/proj/site"
                  eq_refl eq_refl eq_refl) as (_ & _ & _ & _ & H).
    apply H; apply startswith_not_prefix; reflexivity.
  - pose proof (SiteDir_containment example_env
                  (new (SiteDir false None) (VStr "site") false) "site_dir"
                  (dirs_config "/home/u/proj/docs" "/home/u/proj/docs/site")
                  false None "/home/u/proj/docs" "/home/u/proj/docs/site"
                  eq_refl eq_refl eq_refl) as (_ & _ & _ & H & _).
    apply H.
    + apply startswith_is_prefix; reflexivity.
    + apply startswith_not_prefix; reflexivity.
Defined.

(** ** [ThemeDir.post_validation] *)

Section ThemeDir.

Variable E : Env.

(** [any(['theme' in c for c in config.user_configs])], read on the
    layers. *)
Lemma theme_in_config_spec (config : Config) :
  existsb (λ c : gmap string val, bool_decide (is_Some (c !! "theme")))
    (user_configs config) = true
  ↔ some_layer_has_key config "theme".
Proof.
  rewrite existsb_exists. unfold some_layer_has_key.
  split; intros (c & Hin & Hc); exists c.
  - apply bool_decide_eq_true in Hc. split; [by apply list_elem_of_In | done].
  - split; [by apply list_elem_of_In | by apply bool_decide_eq_true].
Qed.

(** What the method leaves in the configuration. *)
Lemma ThemeDir_post_validation_result (key_name : string) (config : Config)
    (theme : string) (override : val) :
  data config !! "theme" = Some (VStr theme) →
  data config !! "theme_dir" = Some override →
  ∃ config',
    ThemeDir_post_validation E key_name config = (Ok tt, config')
    ∧ data config' !! "mkdocs_templates" = Some (mkdocs_templates_dir E)
    ∧ data config' !! "theme_dir" =
      Some (VList
        ((if negb (is_None override) then
            override ::
            (if existsb (λ c : gmap string val, bool_decide (is_Some (c !! "theme")))
                  (user_configs config)
             then [builtin_theme_dir E theme] else [])
          else [builtin_theme_dir E theme])
         ++ [search_assets_dir E])).
Proof.
  intros Htheme Hdir.
  unfold ThemeDir_post_validation, append_item, setitem. run_M.
  rewrite Htheme. simpl.
  rewrite lookup_insert_ne by done. rewrite Hdir. simpl.
  rewrite lookup_insert_eq.
  eexists. split; [reflexivity|]. simpl.
  rewrite lookup_insert_ne by done.
  rewrite lookup_insert_ne by done.
  rewrite !lookup_insert_eq. split; [done|].
  destruct (is_None override); simpl; [done|].
  by destruct (existsb _ _).
Qed.

End ThemeDir.

(** C5: [ThemeDir.post_validation] leaves in [config['theme_dir']] the
    list [builtin; search] when there is no override, the list
    [override; builtin; search] when there is one and some layer of
    [user_configs] has the key ['theme'], and [override; search] when there
    is one and no layer has that key; the directory of the search assets is
    the last element in each case. *)
Theorem ThemeDir_assembly (E : Env) (self : ConfigOption) (key_name : string)
    (config : Config) (exists_ : bool) (length : option Z)
    (theme : string) (override : val) :
  class_of self = ThemeDir exists_ length →
  data config !! "theme" = Some (VStr theme) →
  data config !! "theme_dir" = Some override →
  ∃ config' dirs,
    post_validation E self key_name config = (Ok tt, config')
    ∧ data config' !! "theme_dir" = Some (VList dirs)
    ∧ (override = VNone →
       dirs = [builtin_theme_dir E theme; search_assets_dir E])
    ∧ (override ≠ VNone → some_layer_has_key config "theme" →
       dirs = [override; builtin_theme_dir E theme; search_assets_dir E])
    ∧ (override ≠ VNone → ¬ some_layer_has_key config "theme" →
       dirs = [override; search_assets_dir E])
    ∧ last dirs = Some (search_assets_dir E).
Proof.
  intros Hc Htheme Hdir.
  destruct (ThemeDir_post_validation_result E key_name config theme override
              Htheme Hdir) as (config' & Hpost & _ & Hlist).
  exists config'. eexists. unfold post_validation. rewrite Hc.
  split; [exact Hpost|]. split; [exact Hlist|].
  pose proof (theme_in_config_spec config) as Hscan.
  destruct (existsb _ (user_configs config)).
  - assert (some_layer_has_key config "theme") as Hsome by by apply Hscan.
    destruct override; simpl; repeat split; intros; done.
  - assert (¬ some_layer_has_key config "theme") as Hnone.
    { intros H. apply Hscan in H. discriminate. }
    destruct override; simpl; repeat split; intros; done.
Qed.

Lemma ThemeDir_assembly_witness :
  ∃ config',
    post_validation example_env (new (ThemeDir false None) VNone false) "theme_dir"
      (theme_config VNone []) = (Ok tt, config')
    ∧ data config' !! "theme_dir"
      = Some (VList [VStr "/opt/mkdocs/themes/mkdocs"; VStr "/opt/mkdocs/assets/search"]).
Proof.
  pose proof (ThemeDir_assembly example_env (new (ThemeDir false None) VNone false)
                "theme_dir" (theme_config VNone []) false None "mkdocs" VNone
                eq_refl eq_refl eq_refl)
    as (config' & dirs & Hpost & Hdirs & Hbuiltin & _).
  exists config'. split; [exact Hpost|].
  rewrite Hdirs, (Hbuiltin eq_refl). reflexivity.
Defined.

(** C6 as stated fails: a layer whose only key is ['theme_dir'] has a key
    in which ['theme'] occurs, and yet the built-in directory is dropped:
    the scan asks for the key ['theme'] itself. *)
Lemma theme_dir_key_does_not_keep_builtin :
  let config :=
    theme_config (VStr "/home/u/proj/custom") [{[ "theme_dir" := VStr "custom" ]}] in
  some_layer_key_mentions config "theme"
  ∧ ¬ some_layer_has_key config "theme"
  ∧ ∃ config',
      post_validation example_env (new (ThemeDir false None) VNone false)
        "theme_dir" config = (Ok tt, config')
      ∧ data config' !! "theme_dir"
        = Some (VList [VStr "/home/u/proj/custom"; VStr "/opt/mkdocs/assets/search"]).
Proof.
  intros config.
  assert (¬ some_layer_has_key config "theme") as Hnone.
  { intros (c & Hin & Hkey). apply list_elem_of_singleton in Hin as ->.
    rewrite lookup_singleton_ne in Hkey by done. by destruct Hkey. }
  split; [|split; [exact Hnone|]].
  - exists {[ "theme_dir" := VStr "custom" ]}, "theme_dir".
    split; [apply list_elem_of_here|]. split.
    + rewrite lookup_singleton_eq. by eexists.
    + by exists "", "_dir".
  - destruct (ThemeDir_post_validation_result example_env "theme_dir" config
                "mkdocs" (VStr "/home/u/proj/custom") eq_refl eq_refl)
      as (config' & Hpost & _ & Hlist).
    exists config'. split; [exact Hpost|]. rewrite Hlist.
    destruct (existsb _ (user_configs config)) eqn:Hscan; [|reflexivity].
    by apply theme_in_config_spec in Hscan.
Qed.

(** C6, amended: with a [theme_dir] that is not [None],
    [ThemeDir.post_validation] drops the built-in theme directory exactly
    when no layer of [user_configs] has the key ['theme'], and keeps it,
    after the override, exactly when some layer has that key. *)
Theorem ThemeDir_builtin_kept_iff (E : Env) (self : ConfigOption)
    (key_name : string) (config : Config) (exists_ : bool) (length : option Z)
    (theme : string) (override : val) :
  class_of self = ThemeDir exists_ length →
  data config !! "theme" = Some (VStr theme) →
  data config !! "theme_dir" = Some override →
  override ≠ VNone →
  ∃ config' dirs,
    post_validation E self key_name config = (Ok tt, config')
    ∧ data config' !! "theme_dir" = Some (VList dirs)
    ∧ (dirs = [override; search_assets_dir E]
       ↔ ¬ some_layer_has_key config "theme")
    ∧ (dirs = [override; builtin_theme_dir E theme; search_assets_dir E]
       ↔ some_layer_has_key config "theme").
Proof.
  intros Hc Htheme Hdir Hover.
  destruct (ThemeDir_post_validation_result E key_name config theme override
              Htheme Hdir) as (config' & Hpost & _ & Hlist).
  exists config'. eexists. unfold post_validation. rewrite Hc.
  split; [exact Hpost|]. split; [exact Hlist|].
  pose proof (theme_in_config_spec config) as Hscan.
  assert (is_None override = false) as -> by by destruct override.
  destruct (existsb _ (user_configs config)); simpl.
  - assert (some_layer_has_key config "theme") as Hsome by by apply Hscan.
    split; split; intros; done.
  - assert (¬ some_layer_has_key config "theme") as Hnone.
    { intros H. apply Hscan in H. discriminate. }
    split; split; intros; done.
Qed.

Lemma ThemeDir_builtin_kept_iff_witness :
  ∃ config',
    post_validation example_env (new (ThemeDir false None) VNone false) "theme_dir"
      (theme_config (VStr "/home/u/proj/custom") [{[ "theme" := VStr "mkdocs" ]}])
    = (Ok tt, config')
    ∧ data config' !! "theme_dir"
      = Some (VList [VStr "/home/u/proj/custom"; VStr "/opt/mkdocs/themes/mkdocs";
                     VStr "/opt/mkdocs/assets/search"]).
Proof.
  pose proof (ThemeDir_builtin_kept_iff example_env
                (new (ThemeDir false None) VNone false) "theme_dir"
                (theme_config (VStr "/home/u/proj/custom") [{[ "theme" := VStr "mkdocs" ]}])
                false None "mkdocs" (VStr "/home/u/proj/custom")
                eq_refl eq_refl eq_refl ltac:(discriminate))
    as (config' & dirs & Hpost & Hdirs & _ & Hkept).
  exists config'. split; [exact Hpost|].
  rewrite Hdirs. f_equal. f_equal. apply Hkept.
  exists {[ "theme" := VStr "mkdocs" ]}. split; [apply list_elem_of_here|].
  rewrite lookup_singleton_eq. by eexists.
Defined.

(** ** [NumPages.post_validation] *)

Lemma len_raises_TypeError (v : val) (e : exn) : len v = Raise e → e = TypeError.
Proof. destruct v; simpl; congruence. Qed.

(** C8: [NumPages.post_validation] leaves a field that is not [None] alone;
    on a field that is [None] it stores whether the length of
    [config['pages']] exceeds [at_lest] (1 unless given), and stores [False],
    raising nothing, when [config['pages']] has no length. *)
Theorem NumPages_threshold (E : Env) (self : ConfigOption) (key_name : string)
    (config : Config) (at_lest : Z) (current : val) :
  class_of self = NumPages at_lest →
  data config !! key_name = Some current →
  (current ≠ VNone → post_validation E self key_name config = (Ok tt, config))
  ∧ (current = VNone →
     ∀ pages, data config !! "pages" = Some pages →
       (∀ n, len pages = Ok n →
          post_validation E self key_name config
          = (Ok tt, updated key_name (VBool (bool_decide (at_lest < n))) config))
       ∧ ((∀ n, len pages ≠ Ok n) →
          post_validation E self key_name config
          = (Ok tt, updated key_name (VBool false) config))).
Proof.
  intros Hc Hcur. unfold post_validation. rewrite Hc.
  unfold NumPages_post_validation. run_M. rewrite Hcur.
  split.
  - intros Hnone. by destruct current.
  - intros -> pages Hpages. simpl. rewrite Hpages. split.
    + intros n ->. unfold setitem, updated.
      replace (bool_decide (at_lest < n)) with (at_lest <? n); [done|].
      case_bool_decide; [by apply Z.ltb_lt | apply Z.ltb_ge; lia].
    + intros Hlen. destruct (len pages) as [n|e] eqn:Hn; [by destruct (Hlen n)|].
      by apply len_raises_TypeError in Hn as ->.
Qed.

Lemma NumPages_threshold_witness :
  let self := new NumPages_default VNone false in
  post_validation example_env self "include_nav" (pages_config (VList []))
  = (Ok tt, updated "include_nav" (VBool false) (pages_config (VList [])))
  ∧ post_validation example_env self "include_nav" (pages_config (VList [VStr "index.md"]))
    = (Ok tt, updated "include_nav" (VBool false) (pages_config (VList [VStr "index.md"])))
  ∧ post_validation example_env self "include_nav"
      (pages_config (VList [VStr "index.md"; VStr "about.md"]))
    = (Ok tt, updated "include_nav" (VBool true)
                (pages_config (VList [VStr "index.md"; VStr "about.md"])))
  ∧ post_validation example_env self "include_nav" (pages_config VNone)
    = (Ok tt, updated "include_nav" (VBool false) (pages_config VNone)).
Proof.
  intros self.
  assert (∀ pages,
    (∀ n, len pages = Ok n →
       post_validation example_env self "include_nav" (pages_config pages)
       = (Ok tt, updated "include_nav" (VBool (bool_decide (1 < n))) (pages_config pages)))
    ∧ ((∀ n, len pages ≠ Ok n) →
       post_validation example_env self "include_nav" (pages_config pages)
       = (Ok tt, updated "include_nav" (VBool false) (pages_config pages)))) as H.
  { intros pages.
    exact (proj2 (NumPages_threshold example_env self "include_nav"
                    (pages_config pages) 1 VNone eq_refl eq_refl)
             eq_refl pages eq_refl). }
  split; [|split; [|split]].
  - exact (proj1 (H (VList [])) 0 eq_refl).
  - exact (proj1 (H (VList [VStr "index.md"])) 1 eq_refl).
  - exact (proj1 (H (VList [VStr "index.md"; VStr "about.md"])) 2 eq_refl).
  - apply (proj2 (H VNone)). discriminate.
Defined.

(** ** [Pages.post_validation] *)

(** The loop puts the index paths in front, the last found first, and keeps
    the other paths in the order they were found. *)
Lemma collect_pages_from (filenames pages : list string) :
  fold_left
    (λ pages filename,
       if String.eqb (fst (posixpath.splitext filename)) "index"
       then filename :: pages
       else pages ++ [filename])
    filenames pages
  = rev (List.filter is_index filenames) ++ pages
    ++ List.filter (λ p, negb (is_index p)) filenames.
Proof.
  revert pages. induction filenames as [|x l IH]; intros pages; simpl.
  - by rewrite app_nil_r.
  - rewrite IH. unfold is_index.
    destruct (String.eqb (fst (posixpath.splitext x)) "index"); simpl.
    + by rewrite <- app_assoc.
    + by rewrite <- app_assoc.
Qed.

Lemma collect_pages_spec (filenames : list string) :
  collect_pages filenames
  = rev (List.filter is_index filenames)
    ++ List.filter (λ p, negb (is_index p)) filenames.
Proof. unfold collect_pages. by rewrite collect_pages_from. Qed.










(** * Further properties of the module *)

(** ** [Type.run_validation] *)

(** X1: a value is returned, and returned as it is, exactly when it is an
    instance of the declared type and, if a length is declared, has that
    length; a value of another type raises [ValidationError], and a value of
    the declared type that has no length raises [TypeError] when a length is
    declared. *)
Theorem Type_run_validation_accepts
    (type_ : list pytype) (length : option Z) (value : val) :
  (∀ v, Type_run_validation type_ length value = Ok v → v = value)
  ∧ (Type_run_validation type_ length value = Ok value
     ↔ isinstance value type_ = true ∧ ∀ n, length = Some n → len value = Ok n)
  ∧ (isinstance value type_ = false →
     ∃ msg, Type_run_validation type_ length value = Raise (ValidationError msg))
  ∧ (isinstance value type_ = true → is_Some length →
     (∀ k, len value ≠ Ok k) →
     Type_run_validation type_ length value = Raise TypeError).
Proof.
  split; [intros v; apply Type_run_validation_Ok|].
  split; [|split].
  - unfold Type_run_validation. split.
    + intros H. destruct (isinstance value type_); [|done].
      split; [done|]. intros n ->. simpl in H.
      destruct (len value) as [k|e]; [|done]. simpl in H.
      destruct (Z.eqb_spec k n) as [Heq|Hne]; [by subst | done].
    + intros [-> Hlen]. simpl. destruct length as [n|]; [|done].
      rewrite (Hlen n eq_refl). simpl. by rewrite Z.eqb_refl.
  - intros Hi. unfold Type_run_validation. rewrite Hi. by eexists.
  - intros Hi [n ->] Hno. unfold Type_run_validation. rewrite Hi. simpl.
    destruct (len value) as [k|e] eqn:Hlen; [by destruct (Hno k)|].
    by apply len_raises_TypeError in Hlen as ->.
Qed.

(** ** [Theme.run_validation] *)

(** X2: a theme is accepted exactly when it is the name of a registered theme.
    An unknown theme is rejected and nothing is recorded; ['mkdocs'] and
    ['readthedocs'] are returned and nothing is recorded; any other
    registered theme is returned and one warning, under the key ['theme'],
    is added at the end of the warnings of the option. *)
Theorem Theme_run_validation_warns (E : Env) (value : val) (self : ConfigOption) :
  (fst (Theme_run_validation E value self) = Ok value
   ↔ ∃ s, value = VStr s ∧ s ∈ get_theme_names E)
  ∧ (fst (Theme_run_validation E value self) ≠ Ok value →
     Theme_run_validation E value self
     = (Raise (ValidationError (Msg "Unrecognised theme.")), self))
  ∧ (∀ s, value = VStr s → s ∈ get_theme_names E →
       s ∈ ["mkdocs"; "readthedocs"] →
       Theme_run_validation E value self = (Ok value, self))
  ∧ (∀ s, value = VStr s → s ∈ get_theme_names E →
       s ∉ ["mkdocs"; "readthedocs"] →
       ∃ msg, Theme_run_validation E value self
              = (Ok value, append_warning ("theme", msg) self)).
Proof.
  unfold Theme_run_validation.
  destruct value as [| | |s| | |]; simpl;
    try (split; [split; [done | by intros (s & ? & _)] | by repeat split]).
  case_bool_decide as Hin; simpl.
  - case_bool_decide as Hkept; simpl.
    + split; [split; [by exists s | done]|].
      split; [done|]. split; [done|]. by intros s' [= <-] _ Hnot.
    + split; [split; [by exists s | done]|].
      split; [done|]. split; [by intros s' [= <-] _ Hk|].
      intros s' [= <-] _ _. by eexists.
  - split; [split; [done | by intros (s' & [= <-] & Hs)]|].
    split; [done|]. split; by intros s' [= <-] Hs.
Qed.

(** ** [BaseConfigOption.validate] and the option object *)

(** X3: validation leaves the class, the default and the required flag of the
    option as they were and only adds to its warnings; an option that is not
    a [Theme] is left exactly as it was, whether the value is accepted or
    not. *)
Theorem validate_keeps_option (E : Env) (value : val) (self : ConfigOption) :
  let self' := snd (validate E value self) in
  class_of self' = class_of self
  ∧ default self' = default self
  ∧ required self' = required self
  ∧ is_required self' = is_required self
  ∧ warnings self `prefix_of` warnings self'
  ∧ (class_of self ≠ Theme → self' = self).
Proof.
  assert (∀ v,
    let self' := snd (run_validation E v self) in
    class_of self' = class_of self ∧ default self' = default self
    ∧ required self' = required self ∧ is_required self' = is_required self
    ∧ warnings self `prefix_of` warnings self'
    ∧ (class_of self ≠ Theme → self' = self)) as Hrun.
  { intros v. rewrite run_validation_unfold.
    destruct (class_of self) eqn:Hc; simpl; try done.
    unfold Theme_run_validation.
    destruct (in_names v (get_theme_names E)); [|done].
    destruct (in_names v _); simpl; [done|].
    repeat split; try done. by apply prefix_app_r. }
  simpl.
  destruct value; try (rewrite validate_supplied by done; apply Hrun).
  rewrite validate_absent.
  destruct (is_None (default self)); simpl; [|apply Hrun].
  by destruct (negb (required self)).
Qed.

(** ** What [post_validation] writes *)

Section Footprint.

Context {A B : Type} (keys : list string).

Lemma writes_within_ret (a : A) : writes_within keys (mret a).
Proof. by intros config. Qed.

Lemma writes_within_raise (e : exn) : writes_within keys (raise e : M Config A).
Proof. by intros config. Qed.

Lemma writes_within_lift (r : res A) : writes_within keys (lift r : M Config A).
Proof. by intros config. Qed.

Lemma writes_within_bind (m : M Config A) (f : A → M Config B) :
  writes_within keys m → (∀ a, writes_within keys (f a)) →
  writes_within keys (m ≫= f).
Proof.
  intros Hm Hf config. unfold mbind, M_bind.
  destruct (Hm config) as [Hlayers Hdata].
  destruct (m config) as [[a|e] config1]; simpl in *; [|done].
  destruct (Hf a config1) as [Hlayers1 Hdata1]. split.
  - by rewrite Hlayers1.
  - intros k Hk. by rewrite Hdata1, Hdata.
Qed.

End Footprint.

Lemma writes_within_get (keys : list string) : writes_within keys get.
Proof. by intros config. Qed.

Lemma writes_within_getitem (keys : list string) (key : string) :
  writes_within keys (getitem key).
Proof. intros config. unfold getitem. by destruct (data config !! key). Qed.

Lemma writes_within_get_or_None (keys : list string) (key : string) :
  writes_within keys (get_or_None key).
Proof. by intros config. Qed.

Lemma writes_within_setitem (keys : list string) (key : string) (v : val) :
  key ∈ keys → writes_within keys (setitem key v).
Proof.
  intros Hkey config. split; [done|]. intros k Hk. simpl.
  apply lookup_insert_ne. by intros ->.
Qed.

(** The footprint of a method, one monadic step at a time. *)
Ltac footprint :=
  repeat first
    [ apply writes_within_bind; [|intros ?]
    | apply writes_within_ret
    | apply writes_within_raise
    | apply writes_within_lift
    | apply writes_within_get
    | apply writes_within_getitem
    | apply writes_within_get_or_None
    | apply writes_within_setitem; set_solver
    | match goal with
      | |- writes_within _ (if ?b then _ else _) => destruct b
      | |- writes_within _ (match ?x with _ => _ end) => destruct x
      end ].

(** X6: whatever the configuration and the outcome, the post-validation of an
    option never touches [user_configs] and changes no key of the
    configuration but its own: ['repo_name'] for a [RepoURL],
    ['mkdocs_templates'] and ['theme_dir'] for a [ThemeDir], the key of the
    option for [Extras], [Pages] and [NumPages], and none for the other
    classes, [SiteDir] included. *)
Theorem post_validation_footprint (E : Env) (self : ConfigOption)
    (key_name : string) (config : Config) :
  let config' := snd (post_validation E self key_name config) in
  user_configs config' = user_configs config
  ∧ ∀ k, k ∉ written_keys (class_of self) key_name →
         data config' !! k = data config !! k.
Proof.
  assert (writes_within (written_keys (class_of self) key_name)
            (post_validation E self key_name)) as H; [|apply H].
  unfold post_validation.
  destruct (class_of self); simpl;
    unfold RepoURL_post_validation, SiteDir_post_validation,
      ThemeDir_post_validation, append_item, Extras_post_validation,
      Pages_post_validation, NumPages_post_validation;
    footprint.
Qed.

(** X7: the first key a post-validation reads has to be there: when it is
    missing, [KeyError] is raised for it and the configuration is left as it
    was. *)
Theorem post_validation_missing_key (E : Env) (self : ConfigOption)
    (key_name key : string) (config : Config) :
  first_key_read (class_of self) key_name = Some key →
  data config !! key = None →
  post_validation E self key_name config = (Raise (KeyError key), config).
Proof.
  intros Hkey Hnone. unfold post_validation.
  destruct (class_of self); simpl in Hkey; try done; injection Hkey as <-.
  - unfold RepoURL_post_validation. run_M. by rewrite Hnone.
  - unfold SiteDir_post_validation. run_M. by rewrite Hnone.
  - unfold ThemeDir_post_validation. run_M. by rewrite Hnone.
  - unfold Extras_post_validation. run_M. by rewrite Hnone.
  - unfold Pages_post_validation. run_M. by rewrite Hnone.
  - unfold NumPages_post_validation. run_M. by rewrite Hnone.
Qed.

Lemma post_validation_missing_key_witness :
  post_validation example_env (new NumPages_default VNone false) "include_nav"
    (repo_config "https://github.com/x/y")
  = (Raise (KeyError "include_nav"), repo_config "https://github.com/x/y").
Proof.
  exact (post_validation_missing_key example_env
           (new NumPages_default VNone false) "include_nav" "include_nav"
           (repo_config "https://github.com/x/y") eq_refl eq_refl).
Defined.

(** ** [RepoURL.post_validation] leaves a given name alone *)

Lemma RepoURL_post_validation_skips (E : Env) (key_name : string)
    (config : Config) (repo_url : val) :
  data config !! "repo_url" = Some repo_url →
  repo_url = VNone
  ∨ (∃ name, data config !! "repo_name" = Some name ∧ name ≠ VNone) →
  RepoURL_post_validation E key_name config = (Ok tt, config).
Proof.
  intros Hurl Hcase.
  unfold RepoURL_post_validation. run_M. rewrite Hurl. simpl.
  destruct Hcase as [-> | (name & Hname & Hset)]; [done|].
  rewrite Hname. simpl.
  destruct name; try done; by destruct repo_url.
Qed.

(** X8: when [repo_url] is [None], or when [repo_name] already holds a value, the
    configuration is left as it was; the URL is not even parsed, so this
    holds for values that [urlparse] would reject too. *)
Theorem RepoURL_keeps_given_name (E : Env) (self : ConfigOption)
    (key_name : string) (config : Config) (repo_url : val) :
  class_of self = RepoURL →
  data config !! "repo_url" = Some repo_url →
  repo_url = VNone
  ∨ (∃ name, data config !! "repo_name" = Some name ∧ name ≠ VNone) →
  post_validation E self key_name config = (Ok tt, config).
Proof.
  intros Hc Hurl Hcase. unfold post_validation. rewrite Hc.
  by apply (RepoURL_post_validation_skips E key_name config repo_url).
Qed.

Lemma RepoURL_keeps_given_name_witness :
  let config :=
    {| data := <[ "repo_name" := VStr "Our code" ]>
                 {[ "repo_url" := VStr "https://github.com/x/y" ]};
       user_configs := [] |} in
  post_validation example_env (new RepoURL VNone false) "repo_url" config
  = (Ok tt, config).
Proof.
  intros config.
  apply (RepoURL_keeps_given_name example_env (new RepoURL VNone false)
           "repo_url" config (VStr "https://github.com/x/y") eq_refl eq_refl).
  right. exists (VStr "Our code"). split; [reflexivity | discriminate].
Defined.

(** ** [ThemeDir.post_validation]: failures and a second run *)

(** X9: a ['theme'] that is not a string raises [TypeError] and leaves the
    configuration as it was; a configuration with a theme but without the
    key ['theme_dir'] raises [KeyError] after ['mkdocs_templates'] has been
    stored. *)
Theorem ThemeDir_post_validation_failures (E : Env) (self : ConfigOption)
    (key_name : string) (config : Config) (exists_ : bool) (length : option Z)
    (theme : val) :
  class_of self = ThemeDir exists_ length →
  data config !! "theme" = Some theme →
  ((∀ s, theme ≠ VStr s) →
   post_validation E self key_name config = (Raise TypeError, config))
  ∧ ((∃ s, theme = VStr s) → data config !! "theme_dir" = None →
     post_validation E self key_name config
     = (Raise (KeyError "theme_dir"),
        updated "mkdocs_templates" (mkdocs_templates_dir E) config)).
Proof.
  intros Hc Htheme. unfold post_validation. rewrite Hc.
  unfold ThemeDir_post_validation. run_M. rewrite Htheme. split.
  - intros Hnot. destruct theme; try done. by destruct (Hnot s).
  - intros [s ->] Hdir. simpl.
    rewrite lookup_insert_ne by done. rewrite Hdir. reflexivity.
Qed.

Lemma ThemeDir_post_validation_failures_witness :
  let config := {| data := {[ "theme" := VStr "mkdocs" ]}; user_configs := [] |} in
  post_validation example_env (new (ThemeDir false None) VNone false) "theme_dir" config
  = (Raise (KeyError "theme_dir"),
     updated "mkdocs_templates" (VStr "/opt/mkdocs/templates") config).
Proof.
  intros config.
  pose proof (ThemeDir_post_validation_failures example_env
                (new (ThemeDir false None) VNone false) "theme_dir" config
                false None (VStr "mkdocs") eq_refl eq_refl) as [_ H].
  apply H; [by eexists | reflexivity].
Defined.

(** X10: [ThemeDir.post_validation] is not to be run twice: the second run finds
    the list of the first under ['theme_dir'] and takes it for the override,
    so that the list it leaves has the first list as its first element. *)
Theorem ThemeDir_post_validation_twice (E : Env) (self : ConfigOption)
    (key_name : string) (config : Config) (exists_ : bool) (length : option Z)
    (theme : string) (override : val) :
  class_of self = ThemeDir exists_ length →
  data config !! "theme" = Some (VStr theme) →
  data config !! "theme_dir" = Some override →
  ∃ config1 config2 dirs1 dirs2,
    post_validation E self key_name config = (Ok tt, config1)
    ∧ data config1 !! "theme_dir" = Some (VList dirs1)
    ∧ post_validation E self key_name config1 = (Ok tt, config2)
    ∧ data config2 !! "theme_dir" = Some (VList (VList dirs1 :: dirs2))
    ∧ last dirs2 = Some (search_assets_dir E).
Proof.
  intros Hc Htheme Hdir. unfold post_validation. rewrite Hc.
  destruct (ThemeDir_post_validation_result E key_name config theme override
              Htheme Hdir) as (config1 & Hpost1 & _ & Hlist1).
  assert (data config1 !! "theme" = Some (VStr theme)) as Htheme1.
  { assert (writes_within ["mkdocs_templates"; "theme_dir"]
              (ThemeDir_post_validation E key_name)) as Hw.
    { unfold ThemeDir_post_validation, append_item. footprint. }
    destruct (Hw config) as [_ Hk]. rewrite Hpost1 in Hk. simpl in Hk.
    rewrite Hk; [done|].
    rewrite !not_elem_of_cons. repeat split; [done..|apply not_elem_of_nil]. }
  destruct (ThemeDir_post_validation_result E key_name config1 theme _
              Htheme1 Hlist1) as (config2 & Hpost2 & _ & Hlist2).
  exists config1, config2. eexists _, _.
  split; [exact Hpost1|]. split; [exact Hlist1|]. split; [exact Hpost2|].
  split; [exact Hlist2|].
  simpl. by destruct (existsb _ (user_configs config1)).
Qed.

Lemma ThemeDir_post_validation_twice_witness :
  ∃ config1 config2 dirs1 dirs2,
    post_validation example_env (new (ThemeDir false None) VNone false) "theme_dir"
      (theme_config VNone []) = (Ok tt, config1)
    ∧ data config1 !! "theme_dir" = Some (VList dirs1)
    ∧ post_validation example_env (new (ThemeDir false None) VNone false) "theme_dir"
        config1 = (Ok tt, config2)
    ∧ data config2 !! "theme_dir" = Some (VList (VList dirs1 :: dirs2))
    ∧ last dirs2 = Some (search_assets_dir example_env).
Proof.
  exact (ThemeDir_post_validation_twice example_env
           (new (ThemeDir false None) VNone false) "theme_dir"
           (theme_config VNone []) false None "mkdocs" VNone
           eq_refl eq_refl eq_refl).
Defined.

(** ** [NumPages.post_validation] without a ['pages'] key *)

(** X11: only [TypeError] is caught: when the field is [None] and the
    configuration has no key ['pages'], [KeyError] is raised and the field
    stays [None]. *)
Theorem NumPages_missing_pages (E : Env) (self : ConfigOption)
    (key_name : string) (config : Config) (at_lest : Z) :
  class_of self = NumPages at_lest →
  data config !! key_name = Some VNone →
  data config !! "pages" = None →
  post_validation E self key_name config = (Raise (KeyError "pages"), config).
Proof.
  intros Hc Hcur Hpages. unfold post_validation. rewrite Hc.
  unfold NumPages_post_validation. run_M. rewrite Hcur. simpl. by rewrite Hpages.
Qed.

Lemma NumPages_missing_pages_witness :
  let config := {| data := {[ "include_nav" := VNone ]}; user_configs := [] |} in
  post_validation example_env (new NumPages_default VNone false) "include_nav" config
  = (Raise (KeyError "pages"), config).
Proof.
  intros config.
  exact (NumPages_missing_pages example_env (new NumPages_default VNone false)
           "include_nav" config 1 eq_refl eq_refl eq_refl).
Defined.

(** ** [Extras.walk_docs_dir] and [Extras.post_validation] *)

(** Every path that [walk_docs_dir] yields passes [file_match]. *)
Lemma walk_docs_dir_file_match (E : Env) (file_match : string → bool)
    (docs_dir : string) :
  Forall (λ p, file_match p = true) (walk_docs_dir E file_match docs_dir).
Proof.
  apply Forall_forall. intros p. unfold walk_docs_dir.
  intros ([[dirpath dirnames] filenames] & Hp & _)%list_elem_of_bind.
  apply list_elem_of_bind in Hp as (filename & Hp & _).
  destruct (file_match _) eqn:Hmatch; [|by apply elem_of_nil in Hp].
  by apply list_elem_of_singleton in Hp as ->.
Qed.





(** ** The loop of [Pages.post_validation] *)

Lemma filter_partition (p : string → bool) (l : list string) :
  List.filter p l ++ List.filter (λ x, negb (p x)) l ≡ₚ l.
Proof.
  induction l as [|x l IH]; simpl; [done|].
  destruct (p x); simpl.
  - by rewrite IH.
  - rewrite <- Permutation_middle. by rewrite IH.
Qed.

(** X13: the reordering loses no page and repeats none: the sequence handed to
    [nest_paths] is a rearrangement of the paths found, made of index paths
    followed by paths that are not. *)
Theorem collect_pages_rearranges (filenames : list string) :
  collect_pages filenames ≡ₚ filenames
  ∧ length (collect_pages filenames) = length filenames
  ∧ ∃ front back,
      collect_pages filenames = front ++ back
      ∧ Forall (λ p, is_index p = true) front
      ∧ Forall (λ p, is_index p = false) back.
Proof.
  assert (collect_pages filenames ≡ₚ filenames) as Hperm.
  { rewrite collect_pages_spec, <- Permutation_rev. apply filter_partition. }
  split; [exact Hperm|]. split; [by rewrite Hperm|].
  eexists _, _. split; [apply collect_pages_spec|]. split.
  - apply Forall_rev, Forall_forall. intros p Hp.
    apply list_elem_of_In, filter_In in Hp. tauto.
  - apply Forall_forall. intros p Hp.
    apply list_elem_of_In, filter_In in Hp as [_ Hp]. by apply negb_true_iff.
Qed.

(** ** An empty list supplied by the user *)

(** X14: for [Pages], an empty list is the same as no value: with neither a
    default nor the required flag, both validate to [None], so that
    post-validation fills the pages in.  [Extras] keeps the empty list, and
    its post-validation then leaves it empty. *)
Theorem empty_list_supplied (E : Env) (self : ConfigOption) :
  default self = VNone →
  required self = false →
  (class_of self = Pages →
   validate E (VList []) self = (Ok VNone, self)
   ∧ validate E VNone self = (Ok VNone, self))
  ∧ (∀ file_match, class_of self = Extras file_match →
     validate E (VList []) self = (Ok (VList []), self)
     ∧ ∀ key_name config, data config !! key_name = Some (VList []) →
         post_validation E self key_name config = (Ok tt, config)).
Proof.
  intros Hd Hr.
  assert (validate E VNone self = (Ok VNone, self)) as Habsent.
  { by rewrite validate_absent, Hd, Hr. }
  split.
  - intros Hc. split; [|done].
    by rewrite validate_supplied, run_validation_unfold, Hc.
  - intros file_match Hc. split.
    + by rewrite validate_supplied, run_validation_unfold, Hc.
    + intros key_name config Hcur. unfold post_validation. rewrite Hc.
      unfold Extras_post_validation. run_M. by rewrite Hcur.
Qed.

Lemma empty_list_supplied_witness :
  validate example_env (VList []) (new Pages VNone false)
  = validate example_env VNone (new Pages VNone false).
Proof.
  pose proof (empty_list_supplied example_env (new Pages VNone false)
                eq_refl eq_refl) as [H _].
  destruct (H eq_refl) as [-> ->]. reflexivity.
Defined.

(** ** Running [post_validation] again *)

(** A field that holds a value stops the three methods that fill it in. *)
Lemma field_set_skips (E : Env) (key_name : string) (config : Config) (current : val) :
  data config !! key_name = Some current →
  current ≠ VNone →
  (∀ file_match,
     Extras_post_validation E file_match key_name config = (Ok tt, config))
  ∧ Pages_post_validation E key_name config = (Ok tt, config)
  ∧ (∀ at_lest, NumPages_post_validation at_lest key_name config = (Ok tt, config)).
Proof.
  intros Hcur Hset.
  unfold Extras_post_validation, Pages_post_validation, NumPages_post_validation.
  run_M. rewrite Hcur. by destruct current.
Qed.

Ltac run_M_in H := autounfold with run in H; simpl in H.

(** X15: for every class but [ThemeDir], a post-validation that has succeeded can
    be run again and changes nothing more (for [Pages], provided
    [nest_paths] never returns [None]). *)
Theorem post_validation_idempotent (E : Env) (self : ConfigOption)
    (key_name : string) (config config' : Config) :
  (∀ exists_ length, class_of self ≠ ThemeDir exists_ length) →
  (class_of self = Pages → ∀ paths, nest_paths E paths ≠ VNone) →
  post_validation E self key_name config = (Ok tt, config') →
  post_validation E self key_name config' = (Ok tt, config').
Proof.
  intros Hnot Hnest. unfold post_validation.
  destruct (class_of self) eqn:Hc; try (by intros [= <-]); intros Hpost.
  - (* RepoURL *)
    unfold RepoURL_post_validation in Hpost. run_M_in Hpost.
    destruct (data config !! "repo_url") as [repo_url|] eqn:Hurl; [|done].
    simpl in Hpost.
    destruct (negb (is_None repo_url) && is_None _) eqn:Hcond; simpl in Hpost.
    + destruct (netloc_lower E repo_url) as [host|]; [|done]. simpl in Hpost.
      assert (∃ name, config' = updated "repo_name" (VStr name) config)
        as [name ->].
      { destruct (String.eqb host "github.com");
          [|destruct (String.eqb host "bitbucket.org")];
          injection Hpost as <-; by eexists. }
      apply (RepoURL_post_validation_skips E _ _ repo_url); simpl.
      * by rewrite lookup_insert_ne.
      * right. exists (VStr name). by rewrite lookup_insert_eq.
    + injection Hpost as <-.
      apply (RepoURL_post_validation_skips E _ _ repo_url); [done|].
      apply andb_false_iff in Hcond as [Hurl_none | Hname].
      * left. by destruct repo_url.
      * right. destruct (data config !! "repo_name") as [name|]; [|done].
        exists name. split; [done|]. by intros ->.
  - (* SiteDir *)
    assert (config' = config) as ->; [|done].
    unfold SiteDir_post_validation in Hpost. run_M_in Hpost.
    destruct (data config !! "docs_dir") as [docs|]; [|done]. simpl in Hpost.
    destruct (receiver_str docs); [|done]. simpl in Hpost.
    destruct (data config !! "site_dir") as [site|]; [|done]. simpl in Hpost.
    destruct (argument_str site); [|done]. simpl in Hpost.
    destruct (str.startswith _ _); [done|].
    destruct (str.startswith _ _); [done|]. by injection Hpost.
  - (* ThemeDir *)
    by destruct (Hnot exists_ length).
  - (* Extras *)
    unfold Extras_post_validation in Hpost. run_M_in Hpost.
    destruct (data config !! key_name) as [current|] eqn:Hcur; [|done].
    simpl in Hpost. destruct (is_None current) eqn:Hnone; simpl in Hpost.
    + destruct (data config !! "docs_dir") as [docs|]; [|done]. simpl in Hpost.
      destruct (argument_str docs); [|done]. simpl in Hpost.
      injection Hpost as <-.
      eapply field_set_skips; [apply lookup_insert_eq | done].
    + injection Hpost as <-.
      eapply field_set_skips; [exact Hcur | by destruct current].
  - (* Pages *)
    unfold Pages_post_validation in Hpost. run_M_in Hpost.
    destruct (data config !! key_name) as [current|] eqn:Hcur; [|done].
    simpl in Hpost. destruct (is_None current) eqn:Hnone; simpl in Hpost.
    + destruct (data config !! "docs_dir") as [docs|]; [|done]. simpl in Hpost.
      destruct (argument_str docs); [|done]. simpl in Hpost.
      injection Hpost as <-.
      eapply field_set_skips; [apply lookup_insert_eq | by apply Hnest].
    + injection Hpost as <-.
      eapply field_set_skips; [exact Hcur | by destruct current].
  - (* NumPages *)
    unfold NumPages_post_validation in Hpost. run_M_in Hpost.
    destruct (data config !! key_name) as [current|] eqn:Hcur; [|done].
    simpl in Hpost. destruct (is_None current) eqn:Hnone; simpl in Hpost.
    + destruct (data config !! "pages") as [pages|]; [|done]. simpl in Hpost.
      destruct (len pages) as [n|[]]; try done; injection Hpost as <-;
        (refine (proj2 (proj2 (field_set_skips E key_name _ _ _ _)) _);
         [apply lookup_insert_eq | done]).
    + injection Hpost as <-.
      refine (proj2 (proj2 (field_set_skips E key_name _ _ Hcur _)) _).
      by destruct current.
Qed.

Lemma post_validation_idempotent_witness :
  post_validation example_env (new RepoURL VNone false) "repo_url"
    (updated "repo_name" (VStr "GitHub") (repo_config "https://github.com/x/y"))
  = (Ok tt, updated "repo_name" (VStr "GitHub") (repo_config "https://github.com/x/y")).
Proof.
  apply (post_validation_idempotent example_env (new RepoURL VNone false)
           "repo_url" (repo_config "https://github.com/x/y")).
  - discriminate.
  - discriminate.
  - reflexivity.
Defined.

(** ** [Dir.run_validation] and absolute paths *)

(** X16: with an absolute working directory, what [Dir.run_validation]
    returns is the absolute path of the value, and it is normalised: one or
    two slashes, and then names, joined by single slashes, none of which is
    empty, ['.'] or ['..']. *)
Theorem Dir_run_validation_absolute (E : Env) (exists_ : bool)
    (length : option Z) (value v : val) :
  str.startswith (getcwd E) "/" = true →
  Dir_run_validation E exists_ length value = Ok v →
  ∃ (given path : string) (initial_slashes : nat) (comps : list string),
    value = VStr given
    ∧ v = VStr path
    ∧ path = posixpath.abspath (getcwd E) given
    ∧ str.startswith path "/" = true
    ∧ (initial_slashes = 1 ∨ initial_slashes = 2)%nat
    ∧ Forall clean comps
    ∧ path = str.take initial_slashes "//" +:+ str.join "/" comps.
Proof.
  intros Hcwd Hok.
  destruct (Dir_run_validation_Ok E _ _ _ _ Hok) as (p & -> & ->).
  destruct (abspath_absolute (getcwd E) p Hcwd) as (i & comps & Hi & Hclean & Heq).
  exists p, (posixpath.abspath (getcwd E) p), i, comps.
  split; [done|]. split; [done|]. split; [done|].
  split; [by apply abspath_startswith_slash|]. done.
Qed.

Lemma Dir_run_validation_absolute_witness :
  Dir_run_validation example_env true None (VStr "docs/../docs/b/")
  = Ok (VStr "/home/u/proj/docs/b")
  ∧ str.startswith "/home/u/proj/docs/b" "/" = true.
Proof.
  destruct (Dir_run_validation_absolute example_env true None
              (VStr "docs/../docs/b/") (VStr "/home/u/proj/docs/b")
              eq_refl eq_refl)
    as (given & path & i & comps & _ & [= <-] & _ & Habs & _).
  split; [reflexivity | exact Habs].
Defined.

(** X17: with an absolute working directory and no declared length, a path
    that [Dir.run_validation] has returned is returned as it is when it is
    validated again, provided that it names a directory when the option
    asks for an existing one. *)
Theorem Dir_run_validation_idempotent (E : Env) (exists_ : bool)
    (value : val) (path : string) :
  str.startswith (getcwd E) "/" = true →
  Dir_run_validation E exists_ None value = Ok (VStr path) →
  exists_ = false ∨ os.isdir E path = true →
  Dir_run_validation E exists_ None (VStr path) = Ok (VStr path).
Proof.
  intros Hcwd Hok Hdir.
  destruct (Dir_run_validation_Ok E _ _ _ _ Hok) as (p & -> & [= ->]).
  unfold Dir_run_validation. simpl.
  rewrite abspath_idempotent by done.
  destruct Hdir as [-> | ->]; [done|]. simpl. by rewrite andb_false_r.
Qed.

Lemma Dir_run_validation_idempotent_witness :
  Dir_run_validation example_env true None (VStr "/home/u/proj/docs")
  = Ok (VStr "/home/u/proj/docs").
Proof.
  apply (Dir_run_validation_idempotent example_env true (VStr "docs")
           "/home/u/proj/docs" eq_refl eq_refl).
  right. reflexivity.
Defined.

(** ** A supplied value and the attributes of the option *)

(** X18: when a value is supplied, the default and the required flag play no
    part: two options of the same class return or raise the same on it. *)
Theorem validate_supplied_ignores_default (E : Env) (value : val)
    (self other : ConfigOption) :
  value ≠ VNone →
  class_of self = class_of other →
  fst (validate E value self) = fst (validate E value other).
Proof.
  intros Hv Hc. rewrite !validate_supplied, !run_validation_unfold, <- Hc by done.
  destruct (class_of self); try done.
  unfold Theme_run_validation.
  destruct (in_names value (get_theme_names E)); [|done].
  by destruct (in_names value _).
Qed.

Lemma validate_supplied_ignores_default_witness :
  fst (validate example_env (VStr "site") (new (Dir false None) (VStr "docs") true))
  = fst (validate example_env (VStr "site") (new (Dir false None) VNone false)).
Proof.
  apply validate_supplied_ignores_default; [discriminate | reflexivity].
Defined.

(** ** [file_match] only filters the walk *)

Lemma filter_bind {X : Type} (f : string → bool) (l : list X) (g : X → list string) :
  List.filter f (l ≫= g) = l ≫= (λ x, List.filter f (g x)).
Proof.
  induction l as [|x l IH]; [done|].
  change ((x :: l) ≫= g) with (g x ++ (l ≫= g)).
  change ((x :: l) ≫= (λ x, List.filter f (g x)))
    with (List.filter f (g x) ++ (l ≫= (λ x, List.filter f (g x)))).
  by rewrite List.filter_app, IH.
Qed.

(** X19: the paths [walk_docs_dir] yields are those of the walk that takes every
    file, in the same order, less the ones [file_match] rejects. *)
Theorem walk_docs_dir_filters (E : Env) (file_match : string → bool)
    (docs_dir : string) :
  walk_docs_dir E file_match docs_dir
  = List.filter file_match (walk_docs_dir E (λ _, true) docs_dir).
Proof.
  unfold walk_docs_dir. rewrite filter_bind.
  apply list_bind_ext; [|done]. intros [[dirpath dirnames] filenames].
  rewrite filter_bind. apply list_bind_ext; [|done]. intros filename. simpl.
  by destruct (file_match _).
Qed.
